(** * ROI-gated vehicle counting: a shallow embedding of [main.ipynb]

    The development embeds the counting core of the class
    [PolygonalROIVehicleCounter]: the ROI definition operations, the
    point and bounding-box classifiers, the per-frame counting procedure
    [process_frame], the reset branch of [run] and the main loop of
    [run] itself.

    Conventions.
    - Python integers (track ids, class ids, pixel coordinates of ROI
      vertices, counters) are [Z].
    - The tracker's boxes and confidences are numpy floats.  They are
      embedded as rationals [Q] with exact arithmetic; no statement below
      depends on a rounding step, and the only float comparison of the
      counting core ([points_inside >= len(check_points) * 0.3]) has the
      same outcome for the float product (slightly below 2.7) and for the
      rational 27/10.
    - [cv2.pointPolygonTest] and the detector/tracker are external; the
      former is a section variable, the latter is the per-frame input.
    - dicts are [gmap], [set] is [gset], [defaultdict] reads go through
      [default].
    - [print] in [process_frame] is modelled as an output trace. *)

From Stdlib Require Import ZArith QArith List.
From stdpp Require Import gmap strings list fin_maps.
Close Scope Q_scope.
Local Open Scope Z_scope.

(** ** Data *)

(** A point handed to the polygon test: a pair of floats. *)
Definition Point : Type := Q * Q.

(** [box = (x1, y1, x2, y2)], one row of [results[0].boxes.xyxy]. *)
Definition Box : Type := Q * Q * Q * Q.

(** The value stored in the two per-frame dicts:
    [{'class': class_name, 'box': box, 'confidence': conf}]. *)
Record VehicleInfo : Type := mkVehicleInfo {
  vi_class : string;
  vi_box : Box;
  vi_confidence : Q
}.

(** One tuple of [zip(boxes, track_ids, classes, confidences)]. *)
Record Detection : Type := mkDetection {
  box : Box;
  track_id : Z;
  cls : Z;
  conf : Q
}.

(** What the tracker hands back for a frame: [None] when
    [results[0].boxes.id is None], otherwise the zipped rows. *)
Definition TrackResult : Type := option (list Detection).

(** The line printed when a vehicle is counted:
    [New {class_name} (ID:{track_id}) detected in ROI! Total: {len(seen_ids)}]. *)
Record Output : Type := NewVehicle {
  out_class : string;
  out_id : Z;
  out_total : nat
}.

(** The attributes of [self] that the counting core reads or writes.
    The model handle, the CLAHE object, the configuration values and
    [start_time] are left out: nothing below reads them. *)
Record Counter : Type := mkCounter {
  track_history : gmap Z (list (Z * Z));
  seen_ids : gset Z;
  vehicle_counts : gmap string Z;
  current_vehicles_in_frame : gmap Z VehicleInfo;
  current_vehicles_in_roi : gmap Z VehicleInfo;
  roi_points : list (Z * Z);
  roi_defined : bool;
  drawing_roi : bool;
  frame_count : Z
}.

Definition set_track_history (v : gmap Z (list (Z * Z))) (c : Counter) : Counter :=
  mkCounter v (seen_ids c) (vehicle_counts c) (current_vehicles_in_frame c)
    (current_vehicles_in_roi c) (roi_points c) (roi_defined c) (drawing_roi c)
    (frame_count c).

Definition set_seen_ids (v : gset Z) (c : Counter) : Counter :=
  mkCounter (track_history c) v (vehicle_counts c) (current_vehicles_in_frame c)
    (current_vehicles_in_roi c) (roi_points c) (roi_defined c) (drawing_roi c)
    (frame_count c).

Definition set_vehicle_counts (v : gmap string Z) (c : Counter) : Counter :=
  mkCounter (track_history c) (seen_ids c) v (current_vehicles_in_frame c)
    (current_vehicles_in_roi c) (roi_points c) (roi_defined c) (drawing_roi c)
    (frame_count c).

Definition set_current_vehicles_in_frame (v : gmap Z VehicleInfo) (c : Counter) : Counter :=
  mkCounter (track_history c) (seen_ids c) (vehicle_counts c) v
    (current_vehicles_in_roi c) (roi_points c) (roi_defined c) (drawing_roi c)
    (frame_count c).

Definition set_current_vehicles_in_roi (v : gmap Z VehicleInfo) (c : Counter) : Counter :=
  mkCounter (track_history c) (seen_ids c) (vehicle_counts c)
    (current_vehicles_in_frame c) v (roi_points c) (roi_defined c) (drawing_roi c)
    (frame_count c).

Definition set_roi_points (v : list (Z * Z)) (c : Counter) : Counter :=
  mkCounter (track_history c) (seen_ids c) (vehicle_counts c)
    (current_vehicles_in_frame c) (current_vehicles_in_roi c) v (roi_defined c)
    (drawing_roi c) (frame_count c).

Definition set_roi_defined (v : bool) (c : Counter) : Counter :=
  mkCounter (track_history c) (seen_ids c) (vehicle_counts c)
    (current_vehicles_in_frame c) (current_vehicles_in_roi c) (roi_points c) v
    (drawing_roi c) (frame_count c).

Definition set_frame_count (v : Z) (c : Counter) : Counter :=
  mkCounter (track_history c) (seen_ids c) (vehicle_counts c)
    (current_vehicles_in_frame c) (current_vehicles_in_roi c) (roi_points c)
    (roi_defined c) (drawing_roi c) v.

(** [__init__]: the state of a freshly constructed counter. *)
Definition init : Counter :=
  mkCounter ∅ ∅ ∅ ∅ ∅ [] false false 0.

(** [self.vehicle_classes]. *)
Definition vehicle_classes : gmap Z string :=
  {[ 2 := "car"; 3 := "motorcycle"; 5 := "bus"; 7 := "truck" ]}.

(** Python's [int(x)] on a float: truncation toward zero. *)
Definition int (q : Q) : Z := Z.quot (Qnum q) (Z.pos (Qden q)).

(** ** ROI definition *)

(** What reaches [define_roi_interactive] from the window: a mouse event
    delivered to [mouse_callback], or one return value of [cv2.waitKey]. *)
Inductive UIEvent : Type :=
  | LButtonDown (x y : Z)
  | RButtonDown
  | OtherMouse
  | WaitKey (k : Z).

(** [list.pop()] on a non-empty list. *)
Definition pop_last {A} (l : list A) : list A := removelast l.

(** [mouse_callback], restricted to its effect on [self.roi_points]. *)
Definition mouse_callback (self : Counter) (e : UIEvent) : Counter :=
  match e with
  | LButtonDown x y => set_roi_points (roi_points self ++ [(x, y)]) self
  | RButtonDown =>
      match roi_points self with
      | [] => self
      | _ => set_roi_points (pop_last (roi_points self)) self
      end
  | _ => self
  end.

(** The SPACE branch of the loop of [define_roi_interactive]: with at
    least three points the ROI is confirmed and the loop is left
    ([Some]); otherwise the loop goes on ([None]). *)
Definition confirm_roi (self : Counter) : option Counter :=
  if (3 <=? length (roi_points self))%nat
  then Some (set_roi_defined true self)
  else None.

(** The [while True] loop of [define_roi_interactive], driven by the
    stream of window events.  [None]: the stream ended while the loop
    was still waiting for SPACE or ESC. *)
Fixpoint roi_dialog (self : Counter) (evs : list UIEvent) : option Counter :=
  match evs with
  | [] => None
  | WaitKey k :: evs' =>
      let key := Z.land k 255 in
      if key =? 32 then
        match confirm_roi self with
        | Some self => Some self
        | None => roi_dialog self evs'
        end
      else if key =? 27 then Some self
      else roi_dialog self evs'
  | e :: evs' => roi_dialog (mouse_callback self e) evs'
  end.

Definition define_roi_interactive (self : Counter) (evs : list UIEvent)
  : option Counter :=
  roi_dialog (set_roi_points [] self) evs.

(** [auto_define_roi]; [height, width = frame.shape[:2]]. *)
Definition auto_define_roi (self : Counter) (height width : Z) : Counter :=
  let center_x := width / 2 in
  let center_y := height / 2 in
  let margin_x := int (inject_Z width * (1 # 10)) in
  let margin_y := int (inject_Z height * (15 # 100)) in
  set_roi_defined true
    (set_roi_points
       [ (center_x, margin_y);
         (width - margin_x, center_y);
         (center_x, height - margin_y);
         (margin_x, center_y) ] self).

(** [create_rectangular_roi]. *)
Definition create_rectangular_roi (self : Counter) (height width : Z) : Counter :=
  let margin_x := int (inject_Z width * (1 # 10)) in
  let margin_y := int (inject_Z height * (15 # 100)) in
  set_roi_defined true
    (set_roi_points
       [ (margin_x, margin_y);
         (width - margin_x, margin_y);
         (width - margin_x, height - margin_y);
         (margin_x, height - margin_y) ] self).

(** ** A computable polygon test

    [cv2.pointPolygonTest] is OpenCV code.  The counting core is
    verified for an arbitrary polygon test (a section variable below);
    the even-odd test here is used to run the core on concrete inputs. *)

Definition edges (poly : list (Z * Z)) : list ((Z * Z) * (Z * Z)) :=
  match poly with
  | [] => []
  | v :: rest => combine poly (rest ++ [v])
  end.

Definition Qbetween (a b x : Q) : bool :=
  (Qle_bool a x && Qle_bool x b) || (Qle_bool b x && Qle_bool x a).

Definition on_edge (e : (Z * Z) * (Z * Z)) (p : Point) : bool :=
  let '((ax, ay), (bx, by_)) := e in
  let '(px, py) := p in
  let ax := inject_Z ax in let ay := inject_Z ay in
  let bx := inject_Z bx in let by_ := inject_Z by_ in
  Qeq_bool ((bx - ax) * (py - ay)) ((by_ - ay) * (px - ax))
  && Qbetween ax bx px && Qbetween ay by_ py.

Definition Qlt_bool (a b : Q) : bool := negb (Qle_bool b a).

Definition crosses_ray (e : (Z * Z) * (Z * Z)) (p : Point) : bool :=
  let '((ax, ay), (bx, by_)) := e in
  let '(px, py) := p in
  let ax := inject_Z ax in let ay := inject_Z ay in
  let bx := inject_Z bx in let by_ := inject_Z by_ in
  negb (Bool.eqb (Qlt_bool py ay) (Qlt_bool py by_))
  && Qlt_bool px ((bx - ax) * (py - ay) / (by_ - ay) + ax).

(** +1 inside, 0 on an edge, -1 outside (the [measureDist=False] answers). *)
Definition even_odd_test (poly : list (Z * Z)) (p : Point) (measureDist : bool) : Q :=
  if existsb (λ e, on_edge e p) (edges poly) then 0%Q
  else if Nat.odd (length (filter (λ e, crosses_ray e p = true) (edges poly)))
       then 1%Q else (-1)%Q.

(** What [run] reads from outside: whether the capture opened, whether
    the first frame could be read, the events of the ROI window, and for
    every frame of the stream the tracker's answer and the value of
    [cv2.waitKey(1)] after it was shown. *)
Record Source : Type := mkSource {
  isOpened : bool;
  first_read : bool;
  window : list UIEvent;
  stream : list (TrackResult * Z)
}.

(** The operations a client can apply to a counter. *)
Inductive Op : Type :=
  | OpDefineInteractive (evs : list UIEvent)
  | OpAutoRhombus (height width : Z)
  | OpRectangle (height width : Z)
  | OpFrame (results : TrackResult)
  | OpReset.

(** ** Sample inputs *)

Definition square_roi : list (Z * Z) := [(0, 0); (100, 0); (100, 100); (0, 100)].

Definition triangle_roi : list (Z * Z) := [(0, 0); (100, 0); (0, 100)].

(** A counter whose ROI was confirmed with the given vertices. *)
Definition counter_with_roi (poly : list (Z * Z)) : Counter :=
  set_roi_defined true (set_roi_points poly init).

Definition box_of (x1 y1 x2 y2 : Z) : Box :=
  (inject_Z x1, inject_Z y1, inject_Z x2, inject_Z y2).

(** A car with identity 7, well inside the square. *)
Definition det_inside : Detection := mkDetection (box_of 40 40 60 60) 7 2 (9 # 10).

(** The same identity, far outside the square. *)
Definition det_outside : Detection := mkDetection (box_of 200 200 220 220) 7 2 (8 # 10).

(** A truck with identity 8 inside the square. *)
Definition det_truck : Detection := mkDetection (box_of 10 10 30 30) 8 7 (7 # 10).

(** A car whose box has its corners swapped: x1 > x2 and y1 > y2. *)
Definition det_inverted : Detection := mkDetection (box_of 60 60 40 40) 9 2 (9 # 10).

(** Identity 7 seen on 40 consecutive frames, moving one pixel a frame. *)
Definition forty_frames : list TrackResult :=
  map (λ i : nat, Some [mkDetection (box_of (Z.of_nat i) 0 (Z.of_nat i + 20) 20) 7 2 (9 # 10)])
      (seq 0 40).

(** A bus with identity 11 in the middle of a 1280x720 frame. *)
Definition det_bus : Detection := mkDetection (box_of 600 300 640 340) 11 5 (6 # 10).

(** A dialog that ends in a confirmation: a SPACE that comes too early
    (one point), four clicks of which one is taken back, and SPACE. *)
Definition three_clicks : list UIEvent :=
  [ WaitKey (-1); LButtonDown 100 100; WaitKey 32; LButtonDown 900 120;
    LButtonDown 500 600; RButtonDown; LButtonDown 520 640; WaitKey (-1);
    WaitKey 32 ].

(** What a session of [run] reads: the dialog is abandoned with ESC
    after one click; three frames follow, the second answered with ['r']
    and the third with ['q']. *)
Definition sample_source : Source :=
  mkSource true true [LButtonDown 5 5; WaitKey 27]
    [(Some [det_bus], 255); (None, 114); (Some [det_bus], 113)].

(** A detection whose class id is not in [vehicle_classes]. *)
Definition det_unknown : Detection := mkDetection (box_of 20 20 40 40) 12 0 (5 # 10).

(** A loop in which the second frame is answered with ['r'] and the
    fourth with ['q']. *)
Definition sample_stream : list (TrackResult * Z) :=
  [ (Some [det_inside; det_truck], -1);
    (Some [det_inside], 114);
    (Some [det_truck; det_outside], 255);
    (None, 113);
    (Some [det_unknown], -1) ].

(** A car with identity 13 in the top-left corner of the frame, outside
    both automatic polygons. *)
Definition det_corner : Detection := mkDetection (box_of 0 0 10 10) 13 2 (9 # 10).

(** A source whose only frame shows [det_corner] and is answered with
    ['q']; [w] is what the ROI window delivers. *)
Definition corner_source (w : list UIEvent) : Source :=
  mkSource true true w [(Some [det_corner], 113)].

Definition sample_ops : list Op :=
  [ OpRectangle 720 1280;
    OpFrame (Some [det_inside; det_bus]);
    OpFrame (Some [det_outside]);
    OpReset;
    OpFrame (Some [det_bus; det_truck]) ].

(** ** The counting core *)

Section Core.

(** [cv2.pointPolygonTest(np.array(roi_points, dtype=np.int32), point, measureDist)]. *)
Variable pointPolygonTest : list (Z * Z) → Point → bool → Q.

(** [is_point_in_roi]. *)
Definition is_point_in_roi (self : Counter) (point : Point) : bool :=
  if negb (roi_defined self) || (length (roi_points self) <? 3)%nat then true
  else
    let result := pointPolygonTest (roi_points self) point false in
    Qle_bool 0 result.

(** The local list [check_points] of [is_vehicle_in_roi]. *)
Definition check_points (b : Box) : list Point :=
  let '(x1, y1, x2, y2) := b in
  [ ((x1 + x2) / 2, (y1 + y2) / 2);
    (x1, y1); (x2, y1); (x1, y2); (x2, y2);
    ((x1 + x2) / 2, y1); ((x1 + x2) / 2, y2);
    (x1, (y1 + y2) / 2); (x2, (y1 + y2) / 2) ]%Q.

(** The counting loop of [is_vehicle_in_roi]. *)
Definition points_inside (self : Counter) (pts : list Point) : Z :=
  fold_left (λ acc point, if is_point_in_roi self point then acc + 1 else acc) pts 0.

(** [is_vehicle_in_roi]. *)
Definition is_vehicle_in_roi (self : Counter) (b : Box) : bool :=
  if negb (roi_defined self) then true
  else
    let pts := check_points b in
    Qle_bool (inject_Z (Z.of_nat (length pts)) * (3 # 10))
             (inject_Z (points_inside self pts)).

(** [self.track_history[track_id].append((cx, cy))] followed by the
    [pop(0)] when the list got longer than 30. *)
Definition record_sighting (h : list (Z * Z)) (c : Z * Z) : list (Z * Z) :=
  let h := h ++ [c] in
  if (30 <? length h)%nat then tail h else h.

(** [(cx, cy)] as computed in [process_frame]. *)
Definition centroid (b : Box) : Z * Z :=
  let '(x1, y1, x2, y2) := b in
  (int ((x1 + x2) / 2)%Q, int ((y1 + y2) / 2)%Q).

(** The body of the [for ... in zip(...)] loop of [process_frame]. *)
Definition process_detection (self : Counter) (d : Detection)
  : Counter * list Output :=
  let class_name := default "unknown" (vehicle_classes !! cls d) in
  let info := mkVehicleInfo class_name (box d) (conf d) in
  let self :=
    set_current_vehicles_in_frame
      (<[track_id d := info]> (current_vehicles_in_frame self)) self in
  let '(self, out) :=
    if is_vehicle_in_roi self (box d) then
      let self :=
        set_current_vehicles_in_roi
          (<[track_id d := info]> (current_vehicles_in_roi self)) self in
      if decide (track_id d ∈ seen_ids self) then (self, [])
      else
        let self := set_seen_ids ({[track_id d]} ∪ seen_ids self) self in
        let self :=
          set_vehicle_counts
            (<[class_name := default 0 (vehicle_counts self !! class_name) + 1]>
               (vehicle_counts self)) self in
        (self, [NewVehicle class_name (track_id d) (size (seen_ids self))])
    else (self, []) in
  let h := default [] (track_history self !! track_id d) in
  (set_track_history
     (<[track_id d := record_sighting h (centroid (box d))]> (track_history self))
     self,
   out).

(** The [for] loop itself. *)
Fixpoint process_detections (self : Counter) (ds : list Detection)
  : Counter * list Output :=
  match ds with
  | [] => (self, [])
  | d :: ds' =>
      let '(self, out) := process_detection self d in
      let '(self, outs) := process_detections self ds' in
      (self, out ++ outs)
  end.

(** [process_frame], with the tracker's answer for the frame as input. *)
Definition process_frame (self : Counter) (results : TrackResult)
  : Counter * list Output :=
  let self := set_frame_count (frame_count self + 1) self in
  let self := set_current_vehicles_in_frame ∅ self in
  let self := set_current_vehicles_in_roi ∅ self in
  match results with
  | Some ds => process_detections self ds
  | None => (self, [])
  end.

(** The ['r'] branch of the loop of [run]. *)
Definition run_reset (self : Counter) : Counter :=
  let self := set_seen_ids ∅ self in
  let self := set_vehicle_counts ∅ self in
  set_track_history ∅ self.

(** The [while True] loop of [run]: every element is the tracker's
    answer for the next frame and the value of [cv2.waitKey(1)] after it
    was shown; the loop ends with the stream or on ['q']. *)
Fixpoint run_loop (self : Counter) (frames : list (TrackResult * Z))
  : Counter * list Output :=
  match frames with
  | [] => (self, [])
  | (results, k) :: frames' =>
      let '(self, out) := process_frame self results in
      let key := Z.land k 255 in
      if key =? 113 then (self, out)
      else
        let self := if key =? 114 then run_reset self else self in
        let '(self, outs) := run_loop self frames' in
        (self, out ++ outs)
  end.

(** [run].  The first frame is resized to 1280x720 before the ROI is
    defined.  [None]: the ROI dialog never finished. *)
Definition run (self : Counter) (src : Source) (roi_type : string)
  : option (Counter * list Output) :=
  if negb (isOpened src) then Some (self, [])
  else if negb (first_read src) then Some (self, [])
  else
    let display_width := 1280 in
    let display_height := 720 in
    match
      (if bool_decide (roi_type = "interactive")
       then define_roi_interactive self (window src)
       else Some self)
    with
    | None => None
    | Some self =>
        let self :=
          if negb (roi_defined self) then
            if bool_decide (roi_type = "auto_rectangle")
            then create_rectangular_roi self display_height display_width
            else auto_define_roi self display_height display_width
          else self in
        Some (run_loop self (stream src))
    end.

(** A run of [process_frame] over consecutive frames with no key
    pressed in between. *)
Fixpoint process_frames (self : Counter) (frames : list TrackResult)
  : Counter * list Output :=
  match frames with
  | [] => (self, [])
  | r :: frames' =>
      let '(self, out) := process_frame self r in
      let '(self, outs) := process_frames self frames' in
      (self, out ++ outs)
  end.

(** ** Specification vocabulary *)

(** A sample point is inside the polygon or on its boundary. *)
Definition inside_or_boundary (self : Counter) (p : Point) : bool :=
  Qle_bool 0 (pointPolygonTest (roi_points self) p false).

(** How many sample points of a box are inside or on the boundary. *)
Definition samples_inside (self : Counter) (b : Box) : nat :=
  length (filter (λ p, inside_or_boundary self p = true) (check_points b)).

(** [roi_defined] implies at least three vertices. *)
Definition roi_inv (self : Counter) : Prop :=
  roi_defined self = true → (3 ≤ length (roi_points self))%nat.

(** [sum(self.vehicle_counts.values())]. *)
Definition sum_counts (m : gmap string Z) : Z :=
  map_fold (λ _ v acc, v + acc) 0 m.

(** [sum(vehicle_counts.values()) == len(seen_ids)]. *)
Definition count_inv (self : Counter) : Prop :=
  sum_counts (vehicle_counts self) = Z.of_nat (size (seen_ids self)).

(** Every stored trajectory has at most 30 points. *)
Definition history_inv (self : Counter) : Prop :=
  ∀ id h, track_history self !! id = Some h → (length h ≤ 30)%nat.

(** The last [n] elements of a list, oldest first. *)
Definition last_n {A} (n : nat) (l : list A) : list A :=
  drop (length l - n) l.

(** How many lines of the output announce identity [id]. *)
Definition times_counted (id : Z) (outs : list Output) : nat :=
  length (filter (λ o, out_id o = id) outs).

(** Identity [id] has a detection in the list that is classified in-ROI. *)
Definition in_roi_in (self : Counter) (id : Z) (ds : list Detection) : Prop :=
  ∃ d, d ∈ ds ∧ track_id d = id ∧ is_vehicle_in_roi self (box d) = true.

(** Identity [id] is classified in-ROI on at least one of the frames. *)
Definition ever_in_roi (self : Counter) (id : Z) (frames : list TrackResult) : Prop :=
  ∃ ds, Some ds ∈ frames ∧ in_roi_in self id ds.

(** The centroids of the sightings of [id], in order of arrival. *)
Definition sightings_in (id : Z) (ds : list Detection) : list (Z * Z) :=
  map (λ d, centroid (box d)) (filter (λ d, track_id d = id) ds).

Fixpoint sightings (id : Z) (frames : list TrackResult) : list (Z * Z) :=
  match frames with
  | [] => []
  | None :: frames' => sightings id frames'
  | Some ds :: frames' => sightings_in id ds ++ sightings id frames'
  end.

(** One operation, and a sequence of them. *)
Definition apply_op (self : Counter) (o : Op) : option Counter :=
  match o with
  | OpDefineInteractive evs => define_roi_interactive self evs
  | OpAutoRhombus h w => Some (auto_define_roi self h w)
  | OpRectangle h w => Some (create_rectangular_roi self h w)
  | OpFrame r => Some (process_frame self r).1
  | OpReset => Some (run_reset self)
  end.

Fixpoint apply_ops (self : Counter) (ops : list Op) : option Counter :=
  match ops with
  | [] => Some self
  | o :: ops' =>
      match apply_op self o with
      | Some self' => apply_ops self' ops'
      | None => None
      end
  end.

(** 1 when the proposition holds, 0 otherwise. *)
Definition indicator (P : Prop) `{Decision P} : nat := if decide P then 1%nat else 0%nat.

(** A box whose corners are out of order. *)
Definition malformed (b : Box) : Prop :=
  let '(x1, y1, x2, y2) := b in (x2 < x1)%Q ∨ (y2 < y1)%Q.

(** The specification's reading of reset: everything accumulated is
    emptied, the two per-frame snapshots included, and the ROI is kept. *)
Definition reset_clears_all (self : Counter) : Prop :=
  seen_ids (run_reset self) = ∅
  ∧ vehicle_counts (run_reset self) = ∅
  ∧ track_history (run_reset self) = ∅
  ∧ current_vehicles_in_frame (run_reset self) = ∅
  ∧ current_vehicles_in_roi (run_reset self) = ∅
  ∧ roi_points (run_reset self) = roi_points self
  ∧ roi_defined (run_reset self) = roi_defined self.

(** The specification's reading of a rejected detection: processing the
    frame neither counts it nor stores it anywhere. *)
Definition neither_counted_nor_stored (self self' : Counter) (d : Detection) : Prop :=
  seen_ids self' = seen_ids self
  ∧ vehicle_counts self' = vehicle_counts self
  ∧ track_history self' !! track_id d = track_history self !! track_id d
  ∧ current_vehicles_in_frame self' !! track_id d = None
  ∧ current_vehicles_in_roi self' !! track_id d = None.

(** ** Rendering decisions

    The drawing calls themselves are OpenCV's.  What is embedded of
    [draw_annotations] is, for every detection, the box handed to
    [cv2.rectangle] with its colour and thickness and the trajectory
    handed to [cv2.polylines]; the label text is left out.  Of
    [draw_statistics] the three numbers computed at its top are embedded. *)

(** [x1, y1, x2, y2 = map(int, box)]. *)
Definition int_box (b : Box) : Z * Z * Z * Z :=
  let '(x1, y1, x2, y2) := b in (int x1, int y1, int x2, int y2).

Record Annotation : Type := mkAnnotation {
  ann_rect : Z * Z * Z * Z;
  ann_in_roi : bool;
  ann_color : Z * Z * Z;
  ann_thickness : Z;
  ann_trajectory : option (list (Z * Z))
}.

(** The body of the loop of [draw_annotations]. *)
Definition annotate (self : Counter) (d : Detection) : Annotation :=
  let in_roi := bool_decide (is_Some (current_vehicles_in_roi self !! track_id d)) in
  let color := if in_roi then (0, 255, 0) else (128, 128, 128) in
  let thickness := if in_roi then 3 else 1 in
  let trajectory :=
    if in_roi then
      let points := default [] (track_history self !! track_id d) in
      if (1 <? length points)%nat then Some points else None
    else None in
  mkAnnotation (int_box (box d)) in_roi color thickness trajectory.

Definition draw_annotations (self : Counter) (results : TrackResult) : list Annotation :=
  match results with
  | Some ds => map (annotate self) ds
  | None => []
  end.

(** What [process_frame] draws: [draw_annotations] runs on the state
    left by the counting loop. *)
Definition process_frame_annotations (self : Counter) (results : TrackResult)
  : list Annotation :=
  draw_annotations (process_frame self results).1 results.

(** The three counts shown by [draw_statistics]. *)
Definition total_unique_count (self : Counter) : nat := size (seen_ids self).

Definition current_roi_count (self : Counter) : nat := size (current_vehicles_in_roi self).

Definition current_total_count (self : Counter) : nat := size (current_vehicles_in_frame self).

(** ** More vocabulary *)

(** The dict stored for a detection in the per-frame snapshots. *)
Definition info_of (d : Detection) : VehicleInfo :=
  mkVehicleInfo (default "unknown" (vehicle_classes !! cls d)) (box d) (conf d).

(** How many lines of the output announce a vehicle of class [c]. *)
Definition times_class (c : string) (outs : list Output) : nat :=
  length (filter (λ o, out_class o = c) outs).

(** Two counters agree on everything the counting reads: the counted
    identities, the per-class counts, the trajectories and the ROI. *)
Definition same_counting (a b : Counter) : Prop :=
  seen_ids a = seen_ids b
  ∧ vehicle_counts a = vehicle_counts b
  ∧ track_history a = track_history b
  ∧ roi_points a = roi_points b
  ∧ roi_defined a = roi_defined b.

(** [key == ord('q')] and [key == ord('r')] for a value of [cv2.waitKey]. *)
Definition is_quit (k : Z) : bool := Z.land k 255 =? 113.

Definition is_reset (k : Z) : bool := Z.land k 255 =? 114.

(** The frames the loop of [run] gets to process: all up to and
    including the first one answered with ['q']. *)
Fixpoint until_quit (frames : list (TrackResult * Z)) : list (TrackResult * Z) :=
  match frames with
  | [] => []
  | (r, k) :: frames' =>
      if is_quit k then [(r, k)] else (r, k) :: until_quit frames'
  end.

(** A box with its two corners exchanged. *)
Definition swap_corners (b : Box) : Box :=
  let '(x1, y1, x2, y2) := b in (x2, y2, x1, y1).

(** ** The classifiers *)

Lemma is_point_in_roi_confirmed (self : Counter) (p : Point) :
  roi_defined self = true → (3 ≤ length (roi_points self))%nat →
  is_point_in_roi self p = inside_or_boundary self p.
Proof.
  intros Hd Hl. unfold is_point_in_roi, inside_or_boundary. rewrite Hd. simpl.
  destruct (Nat.ltb_spec (length (roi_points self)) 3); [lia | reflexivity].
Qed.

Lemma points_inside_acc (self : Counter) (pts : list Point) (acc : Z) :
  roi_defined self = true → (3 ≤ length (roi_points self))%nat →
  fold_left (λ a point, if is_point_in_roi self point then a + 1 else a) pts acc
  = acc + Z.of_nat (length (filter (λ p, inside_or_boundary self p = true) pts)).
Proof.
  intros Hd Hl. revert acc.
  induction pts as [|p pts IH]; intros acc; simpl.
  - lia.
  - rewrite IH, is_point_in_roi_confirmed by assumption.
    rewrite filter_cons.
    destruct (inside_or_boundary self p) eqn:E.
    + rewrite decide_True by reflexivity. simpl length. lia.
    + rewrite decide_False by discriminate. lia.
Qed.

Lemma check_points_length (b : Box) : length (check_points b) = 9%nat.
Proof. destruct b as [[[x1 y1] x2] y2]. reflexivity. Qed.

Lemma threshold_three (n : Z) :
  Qle_bool (inject_Z (Z.of_nat 9) * (3 # 10)) (inject_Z n) = true ↔ 3 ≤ n.
Proof.
  rewrite Qle_bool_iff. unfold Qle. simpl. lia.
Qed.

Lemma is_vehicle_in_roi_count (self : Counter) (b : Box) :
  roi_defined self = true → (3 ≤ length (roi_points self))%nat →
  is_vehicle_in_roi self b = true ↔ (3 ≤ samples_inside self b)%nat.
Proof.
  intros Hd Hl. unfold is_vehicle_in_roi, samples_inside. rewrite Hd. simpl.
  rewrite check_points_length.
  unfold points_inside. rewrite points_inside_acc by assumption.
  rewrite threshold_three. lia.
Qed.

(** The classifier reads nothing but the ROI. *)
Lemma is_vehicle_in_roi_ext (self self' : Counter) (b : Box) :
  roi_points self = roi_points self' → roi_defined self = roi_defined self' →
  is_vehicle_in_roi self b = is_vehicle_in_roi self' b.
Proof.
  intros Hp Hd. unfold is_vehicle_in_roi, points_inside, is_point_in_roi.
  rewrite Hp, Hd. reflexivity.
Qed.

(** C2: for a confirmed polygon the box classifier looks at the nine
    sample points (centre, four corners, four edge midpoints) and answers
    true exactly when at least three of them are inside or on the
    boundary; three of nine is in-ROI, two of nine is outside. *)
Theorem is_vehicle_in_roi_threshold (self : Counter) (x1 y1 x2 y2 : Q) :
  roi_defined self = true → (3 ≤ length (roi_points self))%nat →
  let b : Box := (x1, y1, x2, y2) in
  check_points b =
    [ ((x1 + x2) / 2, (y1 + y2) / 2);
      (x1, y1); (x2, y1); (x1, y2); (x2, y2);
      ((x1 + x2) / 2, y1); ((x1 + x2) / 2, y2);
      (x1, (y1 + y2) / 2); (x2, (y1 + y2) / 2) ]%Q
  ∧ length (check_points b) = 9%nat
  ∧ points_inside self (check_points b) = Z.of_nat (samples_inside self b)
  ∧ (is_vehicle_in_roi self b = true ↔ (3 ≤ samples_inside self b)%nat)
  ∧ (samples_inside self b = 3%nat → is_vehicle_in_roi self b = true)
  ∧ (samples_inside self b = 2%nat → is_vehicle_in_roi self b = false).
Proof.
  intros Hd Hl b.
  pose proof (is_vehicle_in_roi_count self b Hd Hl) as Hiff.
  repeat split.
  - unfold points_inside. rewrite points_inside_acc by assumption. reflexivity.
  - apply Hiff.
  - apply Hiff.
  - intros E. apply Hiff. lia.
  - intros E. apply not_true_is_false. intros Hv. apply Hiff in Hv. lia.
Qed.

(** C7: without a defined ROI every box and every point is accepted. *)
Theorem fail_open_default (self : Counter) :
  roi_defined self = false →
  (∀ b : Box, is_vehicle_in_roi self b = true)
  ∧ (∀ p : Point, is_point_in_roi self p = true).
Proof.
  intros Hd. split.
  - intros b. unfold is_vehicle_in_roi. rewrite Hd. reflexivity.
  - intros p. unfold is_point_in_roi. rewrite Hd. reflexivity.
Qed.

(** ** One detection *)

Ltac split_detection self d :=
  unfold process_detection;
  rewrite (is_vehicle_in_roi_ext (set_current_vehicles_in_frame _ self) self)
    by reflexivity;
  destruct (is_vehicle_in_roi self (box d)) eqn:?;
  [ cbn [seen_ids set_current_vehicles_in_roi set_current_vehicles_in_frame];
    destruct (decide (track_id d ∈ seen_ids self)) | ];
  cbn.

Lemma process_detection_roi (self : Counter) (d : Detection) :
  roi_points (process_detection self d).1 = roi_points self
  ∧ roi_defined (process_detection self d).1 = roi_defined self.
Proof. split_detection self d; auto. Qed.

Lemma process_detection_seen (self : Counter) (d : Detection) :
  seen_ids (process_detection self d).1 =
    if is_vehicle_in_roi self (box d)
    then {[track_id d]} ∪ seen_ids self else seen_ids self.
Proof.
  split_detection self d; auto.
  symmetry. apply subseteq_union_1_L. by apply singleton_subseteq_l.
Qed.

Lemma process_detection_out (self : Counter) (d : Detection) :
  (process_detection self d).2 =
    if is_vehicle_in_roi self (box d) && bool_decide (track_id d ∉ seen_ids self)
    then [NewVehicle (default "unknown" (vehicle_classes !! cls d)) (track_id d)
            (size ({[track_id d]} ∪ seen_ids self))]
    else [].
Proof.
  split_detection self d.
  - rewrite bool_decide_eq_false_2; [reflexivity | tauto].
  - rewrite bool_decide_eq_true_2; [reflexivity | assumption].
  - reflexivity.
Qed.

Lemma process_detection_counts (self : Counter) (d : Detection) :
  vehicle_counts (process_detection self d).1 =
    if is_vehicle_in_roi self (box d) && bool_decide (track_id d ∉ seen_ids self)
    then
      let class_name := default "unknown" (vehicle_classes !! cls d) in
      <[class_name := default 0 (vehicle_counts self !! class_name) + 1]>
        (vehicle_counts self)
    else vehicle_counts self.
Proof.
  split_detection self d.
  - rewrite bool_decide_eq_false_2; [reflexivity | tauto].
  - rewrite bool_decide_eq_true_2; [reflexivity | assumption].
  - reflexivity.
Qed.

Lemma process_detection_history (self : Counter) (d : Detection) :
  track_history (process_detection self d).1 =
    <[track_id d :=
        record_sighting (default [] (track_history self !! track_id d))
          (centroid (box d))]> (track_history self).
Proof. split_detection self d; reflexivity. Qed.

Lemma process_detection_in_frame (self : Counter) (d : Detection) :
  current_vehicles_in_frame (process_detection self d).1 =
    <[track_id d :=
        mkVehicleInfo (default "unknown" (vehicle_classes !! cls d)) (box d) (conf d)]>
      (current_vehicles_in_frame self).
Proof. split_detection self d; reflexivity. Qed.

Lemma process_detection_in_roi (self : Counter) (d : Detection) :
  current_vehicles_in_roi (process_detection self d).1 =
    if is_vehicle_in_roi self (box d)
    then
      <[track_id d :=
          mkVehicleInfo (default "unknown" (vehicle_classes !! cls d)) (box d) (conf d)]>
        (current_vehicles_in_roi self)
    else current_vehicles_in_roi self.
Proof. split_detection self d; reflexivity. Qed.

(** ** A list of detections *)

Lemma process_detections_cons (self : Counter) (d : Detection) (ds : list Detection) :
  process_detections self (d :: ds) =
    ((process_detections (process_detection self d).1 ds).1,
     (process_detection self d).2 ++ (process_detections (process_detection self d).1 ds).2).
Proof.
  simpl. destruct (process_detection self d) as [s o].
  simpl. destruct (process_detections s ds). reflexivity.
Qed.

Lemma process_detections_roi (self : Counter) (ds : list Detection) :
  roi_points (process_detections self ds).1 = roi_points self
  ∧ roi_defined (process_detections self ds).1 = roi_defined self.
Proof.
  revert self. induction ds as [|d ds IH]; intros self.
  - auto.
  - rewrite process_detections_cons. simpl.
    destruct (IH (process_detection self d).1) as [-> ->].
    apply process_detection_roi.
Qed.

Lemma process_frame_roi (self : Counter) (r : TrackResult) :
  roi_points (process_frame self r).1 = roi_points self
  ∧ roi_defined (process_frame self r).1 = roi_defined self.
Proof.
  unfold process_frame. destruct r as [ds|]; [|auto].
  destruct (process_detections_roi
    (set_current_vehicles_in_roi ∅
       (set_current_vehicles_in_frame ∅
          (set_frame_count (frame_count self + 1) self))) ds) as [-> ->].
  auto.
Qed.

Lemma process_frames_cons (self : Counter) (r : TrackResult) (frames : list TrackResult) :
  process_frames self (r :: frames) =
    ((process_frames (process_frame self r).1 frames).1,
     (process_frame self r).2 ++ (process_frames (process_frame self r).1 frames).2).
Proof.
  simpl. destruct (process_frame self r) as [s o].
  simpl. destruct (process_frames s frames). reflexivity.
Qed.

Lemma process_frames_roi (self : Counter) (frames : list TrackResult) :
  roi_points (process_frames self frames).1 = roi_points self
  ∧ roi_defined (process_frames self frames).1 = roi_defined self.
Proof.
  revert self. induction frames as [|r frames IH]; intros self.
  - auto.
  - rewrite process_frames_cons. simpl.
    destruct (IH (process_frame self r).1) as [-> ->].
    apply process_frame_roi.
Qed.

(** [process_frames] is the loop of [run] while no key is pressed
    ([cv2.waitKey] answers -1). *)
Lemma run_loop_no_key (self : Counter) (frames : list TrackResult) :
  run_loop self (map (λ r, (r, -1)) frames) = process_frames self frames.
Proof.
  revert self. induction frames as [|r frames IH]; intros self; [reflexivity|].
  cbn [map run_loop process_frames]. cbv zeta.
  destruct (process_frame self r) as [s o].
  change (Z.land (-1) 255 =? 113) with false.
  change (Z.land (-1) 255 =? 114) with false.
  cbv iota. rewrite IH. reflexivity.
Qed.

(** ** At-most-once counting *)

Lemma times_counted_app (id : Z) (o1 o2 : list Output) :
  times_counted id (o1 ++ o2) = (times_counted id o1 + times_counted id o2)%nat.
Proof. unfold times_counted. by rewrite filter_app, length_app. Qed.

Lemma elem_of_add (x id : Z) (s : gset Z) : id ∈ {[x]} ∪ s ↔ id = x ∨ id ∈ s.
Proof. by rewrite elem_of_union, elem_of_singleton. Qed.

(** The balance of one detection: a line is printed for [id] exactly
    when [id] enters [seen_ids]. *)
Lemma process_detection_balance (self : Counter) (d : Detection) (id : Z) :
  (times_counted id (process_detection self d).2 + indicator (id ∈ seen_ids self))%nat
  = indicator (id ∈ seen_ids (process_detection self d).1).
Proof.
  rewrite process_detection_out, process_detection_seen.
  unfold indicator, times_counted.
  destruct (is_vehicle_in_roi self (box d)); simpl; [|reflexivity].
  destruct (decide (track_id d ∈ seen_ids self)) as [Hin|Hout].
  - rewrite bool_decide_eq_false_2 by tauto. simpl.
    destruct (decide (id ∈ seen_ids self)) as [Hi|Hi].
    + rewrite decide_True; [reflexivity | apply elem_of_add; tauto].
    + rewrite decide_False; [reflexivity |].
      rewrite elem_of_add. intros [->|?]; done.
  - rewrite bool_decide_eq_true_2 by assumption.
    rewrite filter_cons, filter_nil. simpl.
    destruct (decide (track_id d = id)) as [Heq|Hne]; simpl.
    + rewrite (decide_False (P := id ∈ seen_ids self)) by (by rewrite <- Heq).
      rewrite decide_True; [reflexivity | apply elem_of_add; auto].
    + destruct (decide (id ∈ seen_ids self)) as [Hi|Hi].
      * rewrite decide_True; [reflexivity | apply elem_of_add; tauto].
      * rewrite decide_False; [reflexivity |].
        rewrite elem_of_add. intros [->|?]; done.
Qed.

Lemma in_roi_in_ext (self self' : Counter) (id : Z) (ds : list Detection) :
  roi_points self = roi_points self' → roi_defined self = roi_defined self' →
  in_roi_in self id ds ↔ in_roi_in self' id ds.
Proof.
  intros Hp Hd. unfold in_roi_in.
  split; intros (d & ? & ? & Hv); exists d; repeat split; try assumption.
  - by rewrite <- (is_vehicle_in_roi_ext self self').
  - by rewrite (is_vehicle_in_roi_ext self self').
Qed.

Lemma process_detections_balance (self : Counter) (ds : list Detection) (id : Z) :
  (times_counted id (process_detections self ds).2 + indicator (id ∈ seen_ids self))%nat
  = indicator (id ∈ seen_ids (process_detections self ds).1).
Proof.
  revert self. induction ds as [|d ds IH]; intros self.
  - reflexivity.
  - rewrite process_detections_cons. simpl.
    rewrite times_counted_app, <- IH, <- process_detection_balance. lia.
Qed.

Lemma process_detections_seen (self : Counter) (ds : list Detection) (id : Z) :
  id ∈ seen_ids (process_detections self ds).1
  ↔ id ∈ seen_ids self ∨ in_roi_in self id ds.
Proof.
  revert self. induction ds as [|d ds IH]; intros self.
  - simpl. split; [auto|]. intros [?|(d & Hd & _)]; [done|]. by apply elem_of_nil in Hd.
  - rewrite process_detections_cons. simpl. rewrite IH.
    destruct (process_detection_roi self d) as [Hp Hdef].
    rewrite (in_roi_in_ext _ self id ds Hp Hdef).
    rewrite process_detection_seen. unfold in_roi_in.
    split.
    + intros [Hs|(d' & Hin & Hid & Hv)].
      * destruct (is_vehicle_in_roi self (box d)) eqn:E; [|by left].
        apply elem_of_union in Hs as [Hs|Hs]; [|by left].
        apply elem_of_singleton in Hs. right. exists d.
        repeat split; [apply elem_of_cons; by left | done | done].
      * right. exists d'. repeat split; [apply elem_of_cons; by right | done | done].
    + intros [Hs|(d' & Hin & Hid & Hv)].
      * left. destruct (is_vehicle_in_roi self (box d)); [|done].
        apply elem_of_union. by right.
      * apply elem_of_cons in Hin as [->|Hin].
        -- left. rewrite Hv. apply elem_of_union. left. by apply elem_of_singleton.
        -- right. exists d'. done.
Qed.

Lemma process_frame_balance (self : Counter) (r : TrackResult) (id : Z) :
  (times_counted id (process_frame self r).2 + indicator (id ∈ seen_ids self))%nat
  = indicator (id ∈ seen_ids (process_frame self r).1).
Proof.
  unfold process_frame. destruct r as [ds|]; [|reflexivity].
  rewrite <- process_detections_balance. reflexivity.
Qed.

Lemma process_frame_seen (self : Counter) (r : TrackResult) (id : Z) :
  id ∈ seen_ids (process_frame self r).1
  ↔ id ∈ seen_ids self ∨ ∃ ds, r = Some ds ∧ in_roi_in self id ds.
Proof.
  unfold process_frame. destruct r as [ds|].
  - rewrite process_detections_seen. simpl.
    rewrite (in_roi_in_ext _ self id ds) by reflexivity.
    split; (intros [?|?]; [by left | right]).
    + by exists ds.
    + destruct H as (ds' & [= <-] & ?). done.
  - simpl. split; [by left|]. intros [?|(? & ? & _)]; done.
Qed.

Lemma process_frames_balance (self : Counter) (frames : list TrackResult) (id : Z) :
  (times_counted id (process_frames self frames).2 + indicator (id ∈ seen_ids self))%nat
  = indicator (id ∈ seen_ids (process_frames self frames).1).
Proof.
  revert self. induction frames as [|r frames IH]; intros self.
  - reflexivity.
  - rewrite process_frames_cons. simpl.
    rewrite times_counted_app, <- IH, <- process_frame_balance. lia.
Qed.

Lemma ever_in_roi_ext (self self' : Counter) (id : Z) (frames : list TrackResult) :
  roi_points self = roi_points self' → roi_defined self = roi_defined self' →
  ever_in_roi self id frames ↔ ever_in_roi self' id frames.
Proof.
  intros Hp Hd. unfold ever_in_roi.
  split; intros (ds & ? & Hin); exists ds; split; try assumption.
  - by apply (in_roi_in_ext self self').
  - by apply (in_roi_in_ext self self').
Qed.

Lemma process_frames_seen (self : Counter) (frames : list TrackResult) (id : Z) :
  id ∈ seen_ids (process_frames self frames).1
  ↔ id ∈ seen_ids self ∨ ever_in_roi self id frames.
Proof.
  revert self. induction frames as [|r frames IH]; intros self.
  - simpl. split; [auto|]. intros [?|(ds & Hd & _)]; [done|]. by apply elem_of_nil in Hd.
  - rewrite process_frames_cons. simpl. rewrite IH.
    destruct (process_frame_roi self r) as [Hp Hdef].
    rewrite (ever_in_roi_ext _ self id frames Hp Hdef).
    rewrite process_frame_seen. unfold ever_in_roi.
    split.
    + intros [[Hs|(ds & -> & Hin)]|(ds & Hin & Hr)].
      * by left.
      * right. exists ds. split; [apply elem_of_cons; by left | done].
      * right. exists ds. split; [apply elem_of_cons; by right | done].
    + intros [Hs|(ds & Hin & Hr)].
      * left. by left.
      * apply elem_of_cons in Hin as [<-|Hin].
        -- left. right. by exists ds.
        -- right. by exists ds.
Qed.

(** C1: within a session (a run of frames that starts with an empty
    [seen_ids]) an identity is announced and added to [seen_ids] at most
    once, and exactly once precisely when some frame of the run
    classifies it in-ROI, however many frames do so. *)
Theorem counted_at_most_once (self : Counter) (frames : list TrackResult) (id : Z) :
  seen_ids self = ∅ →
  let r := process_frames self frames in
  (times_counted id r.2 ≤ 1)%nat
  ∧ (times_counted id r.2 = 1%nat ↔ ever_in_roi self id frames)
  ∧ (id ∈ seen_ids r.1 ↔ ever_in_roi self id frames).
Proof.
  intros Hempty r. subst r.
  pose proof (process_frames_balance self frames id) as Hbal.
  pose proof (process_frames_seen self frames id) as Hseen.
  rewrite Hempty in Hbal, Hseen.
  unfold indicator in Hbal.
  rewrite (decide_False (P := id ∈ (∅ : gset Z))) in Hbal by apply not_elem_of_empty.
  assert (Hiff : id ∈ seen_ids (process_frames self frames).1
                 ↔ ever_in_roi self id frames).
  { rewrite Hseen. split; [|by right]. intros [H|H]; [|done].
    by apply not_elem_of_empty in H. }
  destruct (decide (id ∈ seen_ids (process_frames self frames).1)) as [Hin|Hout].
  - repeat split; try lia; try tauto.
  - repeat split; try lia; try tauto.
Qed.

(** ** The sum invariant *)

Lemma sum_counts_empty : sum_counts ∅ = 0.
Proof. unfold sum_counts. apply map_fold_empty. Qed.

Lemma sum_counts_insert_fresh (m : gmap string Z) (c : string) (v : Z) :
  m !! c = None → sum_counts (<[c := v]> m) = v + sum_counts m.
Proof.
  intros Hc. unfold sum_counts.
  apply (map_fold_insert_L (λ _ v acc, v + acc)); [|assumption].
  intros. lia.
Qed.

(** [m[c] = v] on a dict read through its default 0. *)
Lemma sum_counts_insert (m : gmap string Z) (c : string) (v : Z) :
  sum_counts (<[c := v]> m) = sum_counts m - default 0 (m !! c) + v.
Proof.
  destruct (m !! c) as [x|] eqn:Hc; simpl.
  - rewrite <- (insert_delete_eq m c v).
    rewrite sum_counts_insert_fresh by apply lookup_delete_eq.
    assert (sum_counts m = x + sum_counts (delete c m)) as ->; [|lia].
    unfold sum_counts.
    apply (map_fold_delete_L (λ _ v acc, v + acc)); [|assumption].
    intros. lia.
  - rewrite sum_counts_insert_fresh by assumption. lia.
Qed.

Lemma size_add_fresh (x : Z) (s : gset Z) :
  x ∉ s → size ({[x]} ∪ s) = S (size s).
Proof.
  intros Hx. rewrite size_union, size_singleton; [reflexivity|].
  by apply disjoint_singleton_l.
Qed.

Lemma process_detection_count_inv (self : Counter) (d : Detection) :
  count_inv self → count_inv (process_detection self d).1.
Proof.
  unfold count_inv. intros Hinv.
  rewrite process_detection_counts, process_detection_seen.
  destruct (is_vehicle_in_roi self (box d)); simpl; [|assumption].
  destruct (decide (track_id d ∈ seen_ids self)) as [Hin|Hout].
  - rewrite bool_decide_eq_false_2 by tauto.
    rewrite subseteq_union_1_L; [assumption | by apply singleton_subseteq_l].
  - rewrite bool_decide_eq_true_2 by assumption.
    rewrite sum_counts_insert, size_add_fresh by assumption. lia.
Qed.

Lemma process_detections_count_inv (self : Counter) (ds : list Detection) :
  count_inv self → count_inv (process_detections self ds).1.
Proof.
  revert self. induction ds as [|d ds IH]; intros self Hinv.
  - assumption.
  - rewrite process_detections_cons. simpl.
    by apply IH, process_detection_count_inv.
Qed.

Lemma process_frame_count_inv (self : Counter) (r : TrackResult) :
  count_inv self → count_inv (process_frame self r).1.
Proof.
  intros Hinv. unfold process_frame. destruct r as [ds|]; [|assumption].
  by apply process_detections_count_inv.
Qed.

Lemma run_reset_count_inv (self : Counter) : count_inv (run_reset self).
Proof.
  unfold count_inv.
  change (vehicle_counts (run_reset self)) with (∅ : gmap string Z).
  change (seen_ids (run_reset self)) with (∅ : gset Z).
  rewrite sum_counts_empty, size_empty. reflexivity.
Qed.

(** The ROI dialog touches only [roi_points] and [roi_defined]. *)
Lemma roi_dialog_counts (self self' : Counter) (evs : list UIEvent) :
  roi_dialog self evs = Some self' →
  seen_ids self' = seen_ids self
  ∧ vehicle_counts self' = vehicle_counts self
  ∧ track_history self' = track_history self.
Proof.
  revert self. induction evs as [|e evs IH]; intros self; [done|].
  destruct e as [x y| | |k]; cbn [roi_dialog].
  - intros H. apply IH in H. exact H.
  - intros H. apply IH in H. unfold mouse_callback in H.
    destruct (roi_points self); exact H.
  - intros H. apply IH in H. exact H.
  - cbv zeta. unfold confirm_roi. destruct (Z.land k 255 =? 32).
    + destruct (3 <=? length (roi_points self))%nat.
      * intros [= <-]. auto.
      * apply IH.
    + destruct (Z.land k 255 =? 27).
      * intros [= <-]. auto.
      * apply IH.
Qed.

Lemma apply_op_count_inv (self self' : Counter) (o : Op) :
  apply_op self o = Some self' → count_inv self → count_inv self'.
Proof.
  destruct o as [evs|h w|h w|r|]; simpl.
  - unfold define_roi_interactive. intros H Hinv.
    apply roi_dialog_counts in H as (Hs & Hc & _).
    unfold count_inv in *. rewrite Hs, Hc. exact Hinv.
  - intros [= <-] Hinv. exact Hinv.
  - intros [= <-] Hinv. exact Hinv.
  - intros [= <-] Hinv. by apply process_frame_count_inv.
  - intros [= <-] _. apply run_reset_count_inv.
Qed.

Lemma apply_ops_count_inv (self self' : Counter) (ops : list Op) :
  apply_ops self ops = Some self' → count_inv self → count_inv self'.
Proof.
  revert self. induction ops as [|o ops IH]; intros self; simpl.
  - intros [= <-]. auto.
  - destruct (apply_op self o) as [s|] eqn:Ho; [|done].
    intros H Hinv. apply (IH s H). by apply (apply_op_count_inv self s o).
Qed.

Lemma init_count_inv : count_inv init.
Proof.
  unfold count_inv.
  change (vehicle_counts init) with (∅ : gmap string Z).
  change (seen_ids init) with (∅ : gset Z).
  rewrite sum_counts_empty, size_empty. reflexivity.
Qed.

(** C3: in every state reached from a fresh counter by ROI definitions,
    processed frames and resets, the per-class counts add up to the
    number of counted identities. *)
Theorem sum_invariant (ops : list Op) (self : Counter) :
  apply_ops init ops = Some self →
  sum_counts (vehicle_counts self) = Z.of_nat (size (seen_ids self)).
Proof.
  intros H. apply (apply_ops_count_inv init self ops H). apply init_count_inv.
Qed.

(** ** Bounded trajectories *)

Lemma last_n_length {A} (n : nat) (l : list A) :
  length (last_n n l) = (n `min` length l)%nat.
Proof. unfold last_n. rewrite length_drop. lia. Qed.

Lemma last_n_short {A} (n : nat) (l : list A) :
  (length l ≤ n)%nat → last_n n l = l.
Proof.
  intros H. unfold last_n.
  replace (length l - n)%nat with 0%nat by lia. reflexivity.
Qed.

Lemma last_n_app_l {A} (n : nat) (l1 l2 : list A) :
  last_n n (last_n n l1 ++ l2) = last_n n (l1 ++ l2).
Proof.
  unfold last_n at 2.
  rewrite <- (drop_app_le l1 l2) by lia.
  unfold last_n. rewrite drop_drop. f_equal.
  rewrite length_drop, !length_app. lia.
Qed.

Lemma record_sighting_last_n (h : list (Z * Z)) (c : Z * Z) :
  (length h ≤ 30)%nat → record_sighting h c = last_n 30 (h ++ [c]).
Proof.
  intros Hlen. unfold record_sighting, last_n.
  rewrite length_app. simpl length.
  destruct (Nat.ltb_spec 30 (length h + 1)) as [Hgt|Hle].
  - replace (length h + 1 - 30)%nat with 1%nat by lia.
    destruct (h ++ [c]); reflexivity.
  - replace (length h + 1 - 30)%nat with 0%nat by lia. reflexivity.
Qed.

Lemma record_sighting_length (h : list (Z * Z)) (c : Z * Z) :
  (length h ≤ 30)%nat → (length (record_sighting h c) ≤ 30)%nat.
Proof.
  intros Hlen. rewrite record_sighting_last_n by assumption.
  rewrite last_n_length. lia.
Qed.

Lemma record_sightings_last_n (cs h : list (Z * Z)) :
  (length h ≤ 30)%nat →
  fold_left record_sighting cs h = last_n 30 (h ++ cs).
Proof.
  revert h. induction cs as [|c cs IH]; intros h Hlen; simpl.
  - rewrite app_nil_r. symmetry. by apply last_n_short.
  - rewrite IH by (by apply record_sighting_length).
    rewrite record_sighting_last_n by assumption.
    rewrite last_n_app_l, <- app_assoc. reflexivity.
Qed.

Lemma process_detection_history_of (self : Counter) (d : Detection) (id : Z) :
  default [] (track_history (process_detection self d).1 !! id) =
    fold_left record_sighting (sightings_in id [d])
      (default [] (track_history self !! id)).
Proof.
  rewrite process_detection_history. unfold sightings_in.
  rewrite filter_cons, filter_nil.
  destruct (decide (track_id d = id)) as [<-|Hne]; simpl.
  - by rewrite lookup_insert_eq.
  - by rewrite lookup_insert_ne.
Qed.

Lemma sightings_in_cons (id : Z) (d : Detection) (ds : list Detection) :
  sightings_in id (d :: ds) = sightings_in id [d] ++ sightings_in id ds.
Proof.
  unfold sightings_in. rewrite <- map_app. f_equal.
  change (d :: ds) with ([d] ++ ds). by rewrite filter_app.
Qed.

Lemma process_detections_history_of (self : Counter) (ds : list Detection) (id : Z) :
  default [] (track_history (process_detections self ds).1 !! id) =
    fold_left record_sighting (sightings_in id ds)
      (default [] (track_history self !! id)).
Proof.
  revert self. induction ds as [|d ds IH]; intros self.
  - reflexivity.
  - rewrite process_detections_cons, sightings_in_cons, fold_left_app. simpl fst.
    rewrite IH, process_detection_history_of. reflexivity.
Qed.

Lemma process_frame_history_of (self : Counter) (r : TrackResult) (id : Z) :
  default [] (track_history (process_frame self r).1 !! id) =
    fold_left record_sighting (sightings id [r])
      (default [] (track_history self !! id)).
Proof.
  unfold process_frame. destruct r as [ds|]; simpl sightings.
  - rewrite app_nil_r, process_detections_history_of. reflexivity.
  - reflexivity.
Qed.

Lemma sightings_cons (id : Z) (r : TrackResult) (frames : list TrackResult) :
  sightings id (r :: frames) = sightings id [r] ++ sightings id frames.
Proof. destruct r; simpl; [by rewrite app_nil_r | reflexivity]. Qed.

Lemma process_frames_history_of (self : Counter) (frames : list TrackResult) (id : Z) :
  default [] (track_history (process_frames self frames).1 !! id) =
    fold_left record_sighting (sightings id frames)
      (default [] (track_history self !! id)).
Proof.
  revert self. induction frames as [|r frames IH]; intros self.
  - reflexivity.
  - rewrite process_frames_cons, sightings_cons, fold_left_app. simpl fst.
    rewrite IH, process_frame_history_of. reflexivity.
Qed.

Lemma process_detection_history_inv (self : Counter) (d : Detection) :
  history_inv self → history_inv (process_detection self d).1.
Proof.
  intros Hinv id h. rewrite process_detection_history.
  destruct (decide (track_id d = id)) as [<-|Hne].
  - rewrite lookup_insert_eq. intros [= <-].
    apply record_sighting_length.
    destruct (track_history self !! track_id d) as [h0|] eqn:E; simpl.
    + by apply (Hinv _ _ E).
    + lia.
  - rewrite lookup_insert_ne by assumption. apply Hinv.
Qed.

Lemma process_detections_history_inv (self : Counter) (ds : list Detection) :
  history_inv self → history_inv (process_detections self ds).1.
Proof.
  revert self. induction ds as [|d ds IH]; intros self Hinv.
  - assumption.
  - rewrite process_detections_cons. simpl.
    by apply IH, process_detection_history_inv.
Qed.

Lemma process_frame_history_inv (self : Counter) (r : TrackResult) :
  history_inv self → history_inv (process_frame self r).1.
Proof.
  intros Hinv. unfold process_frame. destruct r as [ds|]; [|assumption].
  by apply process_detections_history_inv.
Qed.

Lemma process_frames_history_inv (self : Counter) (frames : list TrackResult) :
  history_inv self → history_inv (process_frames self frames).1.
Proof.
  revert self. induction frames as [|r frames IH]; intros self Hinv.
  - assumption.
  - rewrite process_frames_cons. simpl.
    by apply IH, process_frame_history_inv.
Qed.

Lemma apply_op_history_inv (self self' : Counter) (o : Op) :
  apply_op self o = Some self' → history_inv self → history_inv self'.
Proof.
  destruct o as [evs|h w|h w|r|]; simpl.
  - unfold define_roi_interactive. intros H Hinv.
    apply roi_dialog_counts in H as (_ & _ & Hh).
    unfold history_inv in *. rewrite Hh. exact Hinv.
  - intros [= <-] Hinv. exact Hinv.
  - intros [= <-] Hinv. exact Hinv.
  - intros [= <-] Hinv. by apply process_frame_history_inv.
  - intros [= <-] _ id h. change (track_history (run_reset self)) with
      (∅ : gmap Z (list (Z * Z))). by rewrite lookup_empty.
Qed.

Lemma apply_ops_history_inv (self self' : Counter) (ops : list Op) :
  apply_ops self ops = Some self' → history_inv self → history_inv self'.
Proof.
  revert self. induction ops as [|o ops IH]; intros self; simpl.
  - intros [= <-]. auto.
  - destruct (apply_op self o) as [s|] eqn:Ho; [|done].
    intros H Hinv. apply (IH s H). by apply (apply_op_history_inv self s o).
Qed.

Lemma init_history_inv : history_inv init.
Proof. intros id h. change (track_history init) with (∅ : gmap Z (list (Z * Z))).
  by rewrite lookup_empty. Qed.

(** C4: in every reachable state no trajectory has more than 30 points;
    and when frames are processed from such a state, the trajectory of an
    identity that had no history yet consists of the centroids of its
    most recent 30 sightings, oldest first, so that after 40 sightings it
    has exactly 30 points, the first 10 having been evicted. *)
Theorem history_bound (ops : list Op) (self : Counter) :
  apply_ops init ops = Some self →
  history_inv self
  ∧ ∀ (frames : list TrackResult) (id : Z),
      track_history self !! id = None →
      let h := default [] (track_history (process_frames self frames).1 !! id) in
      (length h ≤ 30)%nat
      ∧ h = last_n 30 (sightings id frames)
      ∧ (length (sightings id frames) = 40%nat →
         length h = 30%nat ∧ h = drop 10 (sightings id frames)).
Proof.
  intros Hreach. split.
  - apply (apply_ops_history_inv init self ops Hreach), init_history_inv.
  - intros frames id Hnone h.
    assert (Hh : h = last_n 30 (sightings id frames)).
    { subst h. rewrite process_frames_history_of, Hnone. simpl.
      rewrite record_sightings_last_n by (simpl; lia). reflexivity. }
    split; [|split].
    + rewrite Hh, last_n_length. lia.
    + exact Hh.
    + intros H40. rewrite Hh. split.
      * rewrite last_n_length. lia.
      * unfold last_n. rewrite H40. reflexivity.
Qed.

(** ** The per-frame snapshots *)

Lemma process_detection_snapshots (self : Counter) (d : Detection) :
  let self' := (process_detection self d).1 in
  dom (current_vehicles_in_frame self') = {[track_id d]} ∪ dom (current_vehicles_in_frame self)
  ∧ dom (current_vehicles_in_roi self) ⊆ dom (current_vehicles_in_roi self')
  ∧ (dom (current_vehicles_in_roi self) ⊆ dom (current_vehicles_in_frame self) →
     dom (current_vehicles_in_roi self') ⊆ dom (current_vehicles_in_frame self'))
  ∧ seen_ids self ⊆ seen_ids self'
  ∧ seen_ids self' ∖ seen_ids self ⊆ dom (current_vehicles_in_roi self').
Proof.
  intros self'. subst self'.
  rewrite process_detection_in_frame, process_detection_in_roi, process_detection_seen.
  destruct (is_vehicle_in_roi self (box d)); rewrite ?dom_insert_L.
  - repeat split.
    + apply union_subseteq_r.
    + intros Hsub x. rewrite !elem_of_add. intros [->|Hx]; [by left|].
      right. by apply Hsub.
    + apply union_subseteq_r.
    + intros x. rewrite elem_of_difference, !elem_of_add. tauto.
  - repeat split; try reflexivity.
    + intros Hsub x Hx. apply elem_of_add. right. by apply Hsub.
    + intros x. rewrite elem_of_difference. tauto.
Qed.

Lemma process_detections_snapshots (self : Counter) (ds : list Detection) :
  let self' := (process_detections self ds).1 in
  dom (current_vehicles_in_roi self) ⊆ dom (current_vehicles_in_roi self')
  ∧ (dom (current_vehicles_in_roi self) ⊆ dom (current_vehicles_in_frame self) →
     dom (current_vehicles_in_roi self') ⊆ dom (current_vehicles_in_frame self'))
  ∧ seen_ids self ⊆ seen_ids self'
  ∧ seen_ids self' ∖ seen_ids self ⊆ dom (current_vehicles_in_roi self').
Proof.
  revert self. induction ds as [|d ds IH]; intros self; cbv zeta.
  - simpl. repeat split; try reflexivity; try tauto.
    intros x. rewrite elem_of_difference. tauto.
  - rewrite process_detections_cons. simpl fst.
    destruct (process_detection_snapshots self d) as (_ & Hmono & Hsub & Hseen & Hnew).
    destruct (IH (process_detection self d).1) as (Hmono' & Hsub' & Hseen' & Hnew').
    repeat split.
    + by etrans.
    + intros H. by apply Hsub', Hsub.
    + by etrans.
    + intros x Hx. apply elem_of_difference in Hx as [Hx Hnx].
      destruct (decide (x ∈ seen_ids (process_detection self d).1)) as [Hmid|Hmid].
      * apply Hmono', Hnew. by apply elem_of_difference.
      * apply Hnew'. by apply elem_of_difference.
Qed.

(** C9: after [process_frame] every identity of the in-ROI snapshot is
    in the all-vehicles snapshot, and every identity that entered
    [seen_ids] during the frame is in the in-ROI snapshot. *)
Theorem snapshot_inclusion (self : Counter) (r : TrackResult) :
  let self' := (process_frame self r).1 in
  dom (current_vehicles_in_roi self') ⊆ dom (current_vehicles_in_frame self')
  ∧ seen_ids self' ∖ seen_ids self ⊆ dom (current_vehicles_in_roi self').
Proof.
  unfold process_frame. destruct r as [ds|]; cbv zeta.
  - match goal with |- context [process_detections ?s ds] =>
      destruct (process_detections_snapshots s ds) as (_ & Hsub & _ & Hnew) end.
    split.
    + apply Hsub. reflexivity.
    + exact Hnew.
  - simpl. split; [reflexivity|].
    intros x. rewrite elem_of_difference. tauto.
Qed.

(** ** The contents of the snapshots *)

Lemma process_detections_in_frame (self : Counter) (ds : list Detection) (id : Z) :
  current_vehicles_in_frame (process_detections self ds).1 !! id =
    match last (filter (λ d, track_id d = id) ds) with
    | Some d => Some (info_of d)
    | None => current_vehicles_in_frame self !! id
    end.
Proof.
  revert self. induction ds as [|d ds IH]; intros self; [reflexivity|].
  rewrite process_detections_cons. cbn [fst].
  rewrite IH, process_detection_in_frame, filter_cons.
  destruct (decide (track_id d = id)) as [<-|Hne].
  - rewrite last_cons, lookup_insert_eq.
    destruct (last (filter (λ d0, track_id d0 = track_id d) ds)); reflexivity.
  - rewrite lookup_insert_ne by assumption. reflexivity.
Qed.

Lemma process_detections_in_roi (self : Counter) (ds : list Detection) (id : Z) :
  current_vehicles_in_roi (process_detections self ds).1 !! id =
    match last (filter (λ d, track_id d = id ∧ is_vehicle_in_roi self (box d) = true) ds) with
    | Some d => Some (info_of d)
    | None => current_vehicles_in_roi self !! id
    end.
Proof.
  revert self. induction ds as [|d ds IH]; intros self; [reflexivity|].
  rewrite process_detections_cons. cbn [fst].
  rewrite IH, process_detection_in_roi, filter_cons.
  destruct (process_detection_roi self d) as [Hp Hd].
  assert (Hext : filter (λ d0, track_id d0 = id
                   ∧ is_vehicle_in_roi (process_detection self d).1 (box d0) = true) ds
               = filter (λ d0, track_id d0 = id
                   ∧ is_vehicle_in_roi self (box d0) = true) ds).
  { apply list_filter_iff. intros d0.
    by rewrite (is_vehicle_in_roi_ext _ self (box d0) Hp Hd). }
  rewrite Hext.
  destruct (decide (track_id d = id ∧ is_vehicle_in_roi self (box d) = true))
    as [[<- Hv]|Hno].
  - rewrite last_cons, Hv, lookup_insert_eq.
    destruct (last (filter _ ds)); reflexivity.
  - destruct (last (filter _ ds)); [reflexivity|].
    destruct (is_vehicle_in_roi self (box d)) eqn:Hv; [|reflexivity].
    rewrite lookup_insert_ne; [reflexivity|]. intros Heq. apply Hno. auto.
Qed.

Lemma process_frame_snapshots_lookup (self : Counter) (ds : list Detection) (id : Z) :
  let self' := (process_frame self (Some ds)).1 in
  current_vehicles_in_frame self' !! id
  = info_of <$> last (filter (λ d, track_id d = id) ds)
  ∧ current_vehicles_in_roi self' !! id
  = info_of <$> last (filter (λ d, track_id d = id
                                   ∧ is_vehicle_in_roi self (box d) = true) ds).
Proof.
  unfold process_frame. cbv zeta.
  match goal with |- context [process_detections ?s ds] => set (s0 := s) end.
  rewrite process_detections_in_frame, process_detections_in_roi.
  assert (Hext : filter (λ d0, track_id d0 = id
                   ∧ is_vehicle_in_roi s0 (box d0) = true) ds
               = filter (λ d0, track_id d0 = id
                   ∧ is_vehicle_in_roi self (box d0) = true) ds).
  { apply list_filter_iff. intros d0.
    by rewrite (is_vehicle_in_roi_ext s0 self (box d0)). }
  rewrite Hext. split.
  - destruct (last (filter _ ds)); reflexivity.
  - destruct (last (filter _ ds)); reflexivity.
Qed.

(** ** Reset *)

(** C5, as amended: the reset branch empties [seen_ids], the per-class
    counts and the trajectories, and leaves the ROI and both per-frame
    snapshots as they were.  The next [process_frame] empties both
    snapshots before its loop, whatever the tracker reports: it runs as
    on a counter whose snapshots are empty, and afterwards the snapshots
    hold the detections of that frame and nothing older. *)
Theorem run_reset_effect (self : Counter) :
  seen_ids (run_reset self) = ∅
  ∧ vehicle_counts (run_reset self) = ∅
  ∧ (∀ c : string, default 0 (vehicle_counts (run_reset self) !! c) = 0)
  ∧ track_history (run_reset self) = ∅
  ∧ (∀ id : Z, default [] (track_history (run_reset self) !! id) = [])
  ∧ roi_points (run_reset self) = roi_points self
  ∧ roi_defined (run_reset self) = roi_defined self
  ∧ current_vehicles_in_frame (run_reset self) = current_vehicles_in_frame self
  ∧ current_vehicles_in_roi (run_reset self) = current_vehicles_in_roi self
  ∧ current_vehicles_in_frame (process_frame (run_reset self) None).1 = ∅
  ∧ current_vehicles_in_roi (process_frame (run_reset self) None).1 = ∅
  ∧ (∀ r : TrackResult,
       process_frame (run_reset self) r
       = process_frame
           (set_current_vehicles_in_roi ∅
              (set_current_vehicles_in_frame ∅ (run_reset self))) r)
  ∧ (∀ (ds : list Detection) (id : Z),
       current_vehicles_in_frame (process_frame (run_reset self) (Some ds)).1 !! id
       = info_of <$> last (filter (λ d, track_id d = id) ds)
       ∧ current_vehicles_in_roi (process_frame (run_reset self) (Some ds)).1 !! id
         = info_of <$> last (filter (λ d, track_id d = id
                                          ∧ is_vehicle_in_roi self (box d) = true) ds)).
Proof.
  do 11 (split; [reflexivity|]).
  split.
  - intros r. reflexivity.
  - intros ds id.
    destruct (process_frame_snapshots_lookup (run_reset self) ds id) as [Hf Hr].
    split; [exact Hf | exact Hr].
Qed.

(** C6: resetting twice gives the same state as resetting once, and a
    reset leaves the ROI polygon alone. *)
Theorem run_reset_idempotent (self : Counter) :
  run_reset (run_reset self) = run_reset self
  ∧ roi_points (run_reset self) = roi_points self
  ∧ roi_defined (run_reset self) = roi_defined self.
Proof. repeat split; reflexivity. Qed.

(** ** The ROI invariant *)

Lemma confirm_roi_inv (self self' : Counter) :
  confirm_roi self = Some self' →
  roi_defined self' = true ∧ (3 ≤ length (roi_points self'))%nat.
Proof.
  unfold confirm_roi.
  destruct (Nat.leb_spec 3 (length (roi_points self))) as [Hl|Hl]; [|done].
  intros [= <-]. split; [reflexivity | exact Hl].
Qed.

Lemma roi_dialog_inv (self self' : Counter) (evs : list UIEvent) :
  roi_dialog self evs = Some self' → roi_defined self = false → roi_inv self'.
Proof.
  revert self. induction evs as [|e evs IH]; intros self; [done|].
  destruct e as [x y| | |k]; cbn [roi_dialog].
  - intros H Hd. by apply (IH _ H).
  - intros H Hd. apply (IH _ H). unfold mouse_callback.
    destruct (roi_points self); exact Hd.
  - intros H Hd. by apply (IH _ H).
  - cbv zeta. destruct (Z.land k 255 =? 32).
    + destruct (confirm_roi self) as [s|] eqn:Hc.
      * intros [= <-] _ _. by apply (confirm_roi_inv self).
      * apply IH.
    + destruct (Z.land k 255 =? 27).
      * intros [= <-] Hd Hd'. congruence.
      * apply IH.
Qed.

Lemma run_loop_roi (self : Counter) (frames : list (TrackResult * Z)) :
  roi_points (run_loop self frames).1 = roi_points self
  ∧ roi_defined (run_loop self frames).1 = roi_defined self.
Proof.
  revert self. induction frames as [|[r k] frames IH]; intros self; [auto|].
  cbn [run_loop]. cbv zeta.
  destruct (process_frame self r) as [s o] eqn:Hpf.
  pose proof (process_frame_roi self r) as Hroi. rewrite Hpf in Hroi.
  simpl in Hroi.
  destruct (Z.land k 255 =? 113); [exact Hroi|].
  destruct (Z.land k 255 =? 114).
  - specialize (IH (run_reset s)). destruct (run_loop (run_reset s) frames).
    simpl in *. destruct IH as [-> ->]. exact Hroi.
  - specialize (IH s). destruct (run_loop s frames).
    simpl in *. destruct IH as [-> ->]. exact Hroi.
Qed.

Lemma roi_inv_ext (self self' : Counter) :
  roi_points self' = roi_points self → roi_defined self' = roi_defined self →
  roi_inv self → roi_inv self'.
Proof. unfold roi_inv. intros -> ->. auto. Qed.

Lemma run_roi_inv (src : Source) (roi_type : string) (self' : Counter)
    (outs : list Output) :
  run init src roi_type = Some (self', outs) → roi_inv self'.
Proof.
  unfold run.
  destruct (isOpened src); simpl; [|by intros [= <- <-]].
  destruct (first_read src); simpl; [|by intros [= <- <-]].
  set (dialog := if bool_decide (roi_type = "interactive")
                 then define_roi_interactive init (window src) else Some init).
  destruct dialog as [s|] eqn:Hdialog; [|done].
  assert (Hs : roi_inv s).
  { subst dialog. destruct (bool_decide (roi_type = "interactive")).
    - by apply (roi_dialog_inv _ _ _ Hdialog).
    - injection Hdialog as <-. done. }
  intros [= Hrun].
  match type of Hrun with run_loop ?s0 _ = _ =>
    assert (Hs0 : roi_inv s0); [|
      destruct (run_loop_roi s0 (stream src)) as [Hp Hd];
      rewrite Hrun in Hp, Hd; by apply (roi_inv_ext s0) ] end.
  destruct (roi_defined s); simpl; [exact Hs|].
  destruct (bool_decide (roi_type = "auto_rectangle")); intros _; simpl; lia.
Qed.

(** Where [roi_defined] does imply at least three vertices.  Each of
    the three places that set [roi_defined] leaves at least three
    vertices: the confirmation branch of the interactive dialog sets it
    only with three or more points, and the two automatic definitions
    write four.  [process_frame] and the reset branch keep the ROI as it
    is.  Hence the implication holds after an interactive definition
    started without a defined ROI, after either automatic definition,
    after every processed frame or reset of a state that satisfies it,
    and in the final state of every [run] of a fresh counter.  It does
    not hold after a dialog that is started on a defined ROI and left
    with ESC; the last section of the file runs that case. *)
Lemma roi_defined_invariant :
  (∀ self self' : Counter,
     confirm_roi self = Some self' →
     roi_defined self' = true ∧ (3 ≤ length (roi_points self'))%nat)
  ∧ (∀ (self self' : Counter) (evs : list UIEvent),
       roi_defined self = false →
       define_roi_interactive self evs = Some self' → roi_inv self')
  ∧ (∀ (self : Counter) (height width : Z),
       roi_defined (auto_define_roi self height width) = true
       ∧ length (roi_points (auto_define_roi self height width)) = 4%nat
       ∧ roi_inv (auto_define_roi self height width))
  ∧ (∀ (self : Counter) (height width : Z),
       roi_defined (create_rectangular_roi self height width) = true
       ∧ length (roi_points (create_rectangular_roi self height width)) = 4%nat
       ∧ roi_inv (create_rectangular_roi self height width))
  ∧ (∀ (self : Counter) (r : TrackResult),
       roi_inv self → roi_inv (process_frame self r).1)
  ∧ (∀ self : Counter, roi_inv self → roi_inv (run_reset self))
  ∧ (∀ (src : Source) (roi_type : string) (self' : Counter) (outs : list Output),
       run init src roi_type = Some (self', outs) → roi_inv self').
Proof.
  split; [|split; [|split; [|split; [|split; [|split]]]]].
  - apply confirm_roi_inv.
  - intros self self' evs Hd H. by apply (roi_dialog_inv _ _ _ H).
  - intros self h w. repeat split. intros _. simpl. lia.
  - intros self h w. repeat split. intros _. simpl. lia.
  - intros self r. destruct (process_frame_roi self r) as [Hp Hd].
    by apply roi_inv_ext.
  - intros self. by apply roi_inv_ext.
  - apply run_roi_inv.
Qed.

(** ** Detections with inverted coordinates *)

Lemma process_detection_mono (self : Counter) (d : Detection) :
  let self' := (process_detection self d).1 in
  dom (current_vehicles_in_frame self) ⊆ dom (current_vehicles_in_frame self')
  ∧ dom (track_history self) ⊆ dom (track_history self')
  ∧ track_id d ∈ dom (current_vehicles_in_frame self')
  ∧ track_id d ∈ dom (track_history self')
  ∧ (is_vehicle_in_roi self (box d) = true →
     track_id d ∈ dom (current_vehicles_in_roi self')).
Proof.
  cbv zeta.
  rewrite process_detection_in_frame, process_detection_history,
    process_detection_in_roi, !dom_insert_L.
  split; [apply union_subseteq_r|].
  split; [apply union_subseteq_r|].
  split; [apply elem_of_add; by left|].
  split; [apply elem_of_add; by left|].
  intros ->. rewrite dom_insert_L. apply elem_of_add. by left.
Qed.

Lemma process_detections_mono (self : Counter) (ds : list Detection) :
  let self' := (process_detections self ds).1 in
  dom (current_vehicles_in_frame self) ⊆ dom (current_vehicles_in_frame self')
  ∧ dom (track_history self) ⊆ dom (track_history self').
Proof.
  revert self. induction ds as [|d ds IH]; intros self; cbv zeta.
  - done.
  - rewrite process_detections_cons. simpl fst.
    destruct (process_detection_mono self d) as (H1 & H2 & _).
    destruct (IH (process_detection self d).1) as (H1' & H2').
    split; by etrans.
Qed.

Lemma process_detections_stores (self : Counter) (ds : list Detection) (d : Detection) :
  d ∈ ds →
  let self' := (process_detections self ds).1 in
  track_id d ∈ dom (current_vehicles_in_frame self')
  ∧ track_id d ∈ dom (track_history self')
  ∧ (is_vehicle_in_roi self (box d) = true →
     track_id d ∈ dom (current_vehicles_in_roi self')).
Proof.
  revert self. induction ds as [|d0 ds IH]; intros self Hin; cbv zeta.
  - by apply elem_of_nil in Hin.
  - rewrite process_detections_cons. simpl fst.
    apply elem_of_cons in Hin as [->|Hin].
    + destruct (process_detection_mono self d0) as (_ & _ & Hf & Hh & Hr).
      destruct (process_detections_mono (process_detection self d0).1 ds) as (Hf' & Hh').
      destruct (process_detections_snapshots (process_detection self d0).1 ds)
        as (Hr' & _).
      repeat split; [by apply Hf' | by apply Hh' |].
      intros Hv. by apply Hr', Hr.
    + destruct (IH (process_detection self d0).1 Hin) as (Hf & Hh & Hr).
      repeat split; [exact Hf | exact Hh |].
      intros Hv. apply Hr. rewrite <- Hv.
      apply is_vehicle_in_roi_ext; apply process_detection_roi.
Qed.

(** C8, as amended: [process_frame] does not look at the order of a
    box's coordinates.  A detection with an inverted box is stored in the
    all-vehicles snapshot and in the trajectory store like any other, is
    put in the in-ROI snapshot and counted when the nine-point rule
    accepts its box, and every detection of the frame is processed. *)
Theorem malformed_detection_processed (self : Counter) (ds : list Detection)
    (d : Detection) :
  d ∈ ds → malformed (box d) →
  let self' := (process_frame self (Some ds)).1 in
  track_id d ∈ dom (current_vehicles_in_frame self')
  ∧ track_id d ∈ dom (track_history self')
  ∧ (is_vehicle_in_roi self (box d) = true →
     track_id d ∈ dom (current_vehicles_in_roi self')
     ∧ track_id d ∈ seen_ids self')
  ∧ (∀ d', d' ∈ ds →
     track_id d' ∈ dom (current_vehicles_in_frame self')
     ∧ track_id d' ∈ dom (track_history self')).
Proof.
  intros Hin _. unfold process_frame. cbv zeta.
  match goal with |- context [process_detections ?s ds] => set (s0 := s) end.
  destruct (process_detections_stores s0 ds d Hin) as (Hf & Hh & Hr).
  repeat split.
  - exact Hf.
  - exact Hh.
  - by apply Hr.
  - apply process_detections_seen. right. exists d. done.
  - by apply (process_detections_stores s0 ds d').
  - by apply (process_detections_stores s0 ds d').
Qed.

(** ** More on the classifiers *)

Lemma points_inside_cons (self : Counter) (p : Point) (pts : list Point) :
  points_inside self (p :: pts)
  = (if is_point_in_roi self p then 1 else 0) + points_inside self pts.
Proof.
  unfold points_inside. simpl.
  assert (H : ∀ l a,
    fold_left (λ acc point, if is_point_in_roi self point then acc + 1 else acc) l a
    = a + fold_left (λ acc point, if is_point_in_roi self point then acc + 1 else acc) l 0).
  { induction l as [|q l IH]; intros a; simpl; [lia|].
    rewrite (IH (if is_point_in_roi self q then a + 1 else a)).
    rewrite (IH (if is_point_in_roi self q then 0 + 1 else 0)).
    destruct (is_point_in_roi self q); lia. }
  rewrite H. destruct (is_point_in_roi self p); lia.
Qed.

Lemma points_inside_nil (self : Counter) : points_inside self [] = 0.
Proof. reflexivity. Qed.

Lemma points_inside_bounds (self : Counter) (pts : list Point) :
  0 ≤ points_inside self pts ≤ Z.of_nat (length pts).
Proof.
  induction pts as [|p pts IH]; [by cbn|].
  rewrite points_inside_cons. simpl length.
  destruct (is_point_in_roi self p); lia.
Qed.

Lemma points_inside_all (self : Counter) (pts : list Point) :
  (∀ p, is_point_in_roi self p = true) →
  points_inside self pts = Z.of_nat (length pts).
Proof.
  intros Hall. induction pts as [|p pts IH]; [reflexivity|].
  rewrite points_inside_cons, Hall, IH. simpl length. lia.
Qed.

(** X1: with fewer than three vertices the polygon is never consulted, even
    when [roi_defined] is set: every point and every box is accepted. *)
Theorem degenerate_roi_accepts_all (self : Counter) :
  (length (roi_points self) < 3)%nat →
  (∀ p : Point, is_point_in_roi self p = true)
  ∧ (∀ b : Box, is_vehicle_in_roi self b = true).
Proof.
  intros Hlen.
  assert (Hp : ∀ p : Point, is_point_in_roi self p = true).
  { intros p. unfold is_point_in_roi.
    destruct (Nat.ltb_spec (length (roi_points self)) 3) as [_|Hge]; [|lia].
    by rewrite orb_true_r. }
  split; [exact Hp|].
  intros b. unfold is_vehicle_in_roi.
  destruct (roi_defined self); [|reflexivity]. simpl.
  rewrite points_inside_all by exact Hp.
  rewrite check_points_length. reflexivity.
Qed.

Lemma Qplus_comm_eq (x y : Q) : (x + y)%Q = (y + x)%Q.
Proof.
  unfold Qplus. f_equal; [apply Z.add_comm | apply Pos.mul_comm].
Qed.

(** X2: the classifier does not care which corner of the box comes first:
    a box and the box with its corners exchanged have the same nine
    sample points, so they are classified alike. *)
Theorem is_vehicle_in_roi_swap_corners (self : Counter) (b : Box) :
  points_inside self (check_points (swap_corners b))
  = points_inside self (check_points b)
  ∧ is_vehicle_in_roi self (swap_corners b) = is_vehicle_in_roi self b.
Proof.
  destruct b as [[[x1 y1] x2] y2].
  assert (Hpts : points_inside self (check_points (swap_corners (x1, y1, x2, y2)))
                 = points_inside self (check_points (x1, y1, x2, y2))).
  { unfold swap_corners, check_points.
    rewrite (Qplus_comm_eq x2 x1), (Qplus_comm_eq y2 y1).
    rewrite !points_inside_cons, !points_inside_nil. lia. }
  split; [exact Hpts|].
  unfold is_vehicle_in_roi. rewrite Hpts, !check_points_length. reflexivity.
Qed.


(** ** More on counting *)

Lemma process_detection_other_fields (self : Counter) (d : Detection) :
  frame_count (process_detection self d).1 = frame_count self
  ∧ drawing_roi (process_detection self d).1 = drawing_roi self.
Proof. split_detection self d; auto. Qed.

Lemma process_detections_other_fields (self : Counter) (ds : list Detection) :
  frame_count (process_detections self ds).1 = frame_count self
  ∧ drawing_roi (process_detections self ds).1 = drawing_roi self.
Proof.
  revert self. induction ds as [|d ds IH]; intros self; [auto|].
  rewrite process_detections_cons. simpl fst.
  destruct (IH (process_detection self d).1) as [-> ->].
  apply process_detection_other_fields.
Qed.

Lemma process_frame_frame_count (self : Counter) (r : TrackResult) :
  frame_count (process_frame self r).1 = frame_count self + 1.
Proof.
  unfold process_frame. destruct r as [ds|]; [|reflexivity].
  by rewrite (proj1 (process_detections_other_fields _ ds)).
Qed.

Lemma vehicle_classes_unknown (c : Z) :
  c ≠ 2 → c ≠ 3 → c ≠ 5 → c ≠ 7 → vehicle_classes !! c = None.
Proof.
  intros H2 H3 H5 H7. unfold vehicle_classes.
  rewrite !lookup_insert_ne by congruence.
  apply lookup_singleton_ne. congruence.
Qed.

(** X3: a detection whose class id is none of 2, 3, 5, 7 is kept: it is
    stored and counted under the label "unknown". *)
Theorem unknown_class_counted (self : Counter) (d : Detection) :
  cls d ≠ 2 → cls d ≠ 3 → cls d ≠ 5 → cls d ≠ 7 →
  is_vehicle_in_roi self (box d) = true →
  track_id d ∉ seen_ids self →
  let r := process_frame self (Some [d]) in
  r.2 = [NewVehicle "unknown" (track_id d) (S (size (seen_ids self)))]
  ∧ vehicle_counts r.1 !! "unknown"
    = Some (default 0 (vehicle_counts self !! "unknown") + 1)
  ∧ current_vehicles_in_frame r.1 !! track_id d
    = Some (mkVehicleInfo "unknown" (box d) (conf d))
  ∧ current_vehicles_in_roi r.1 !! track_id d
    = Some (mkVehicleInfo "unknown" (box d) (conf d)).
Proof.
  intros H2 H3 H5 H7 Hv Hnew r. subst r.
  unfold process_frame. cbv zeta.
  match goal with |- context [process_detections ?s [d]] => set (s0 := s) end.
  assert (Hv0 : is_vehicle_in_roi s0 (box d) = true).
  { rewrite <- Hv. by apply is_vehicle_in_roi_ext. }
  rewrite process_detections_cons. cbn [process_detections fst snd].
  rewrite app_nil_r.
  rewrite process_detection_out, process_detection_counts,
    process_detection_in_frame, process_detection_in_roi, Hv0.
  rewrite vehicle_classes_unknown by assumption.
  change (seen_ids s0) with (seen_ids self).
  change (vehicle_counts s0) with (vehicle_counts self).
  rewrite bool_decide_eq_true_2 by assumption. simpl.
  rewrite size_add_fresh by assumption.
  rewrite !lookup_insert_eq. auto.
Qed.

(** X4: a frame none of whose detections is classified in-ROI counts
    nothing and prints nothing; its in-ROI snapshot is empty. *)
Theorem frame_outside_roi_counts_nothing (self : Counter) (ds : list Detection) :
  (∀ d, d ∈ ds → is_vehicle_in_roi self (box d) = false) →
  let r := process_frame self (Some ds) in
  r.2 = []
  ∧ seen_ids r.1 = seen_ids self
  ∧ vehicle_counts r.1 = vehicle_counts self
  ∧ current_vehicles_in_roi r.1 = ∅.
Proof.
  intros Hout r. subst r. unfold process_frame. cbv zeta.
  match goal with |- context [process_detections ?s ds] => set (s0 := s) end.
  assert (Hgen : ∀ s : Counter,
    roi_points s = roi_points self → roi_defined s = roi_defined self →
    (process_detections s ds).2 = []
    ∧ seen_ids (process_detections s ds).1 = seen_ids s
    ∧ vehicle_counts (process_detections s ds).1 = vehicle_counts s
    ∧ current_vehicles_in_roi (process_detections s ds).1 = current_vehicles_in_roi s).
  { clear s0. induction ds as [|d ds IH]; intros s Hp Hd; [by cbn|].
    rewrite process_detections_cons. cbn [fst snd].
    assert (Hv : is_vehicle_in_roi s (box d) = false).
    { rewrite (is_vehicle_in_roi_ext s self) by assumption.
      apply Hout, elem_of_cons. by left. }
    destruct (process_detection_roi s d) as [Hp' Hd'].
    destruct (IH (λ d' H, Hout d' (proj2 (elem_of_cons _ _ _) (or_intror H)))
                (process_detection s d).1) as (-> & -> & -> & ->);
      [congruence | congruence |].
    rewrite process_detection_out, process_detection_seen,
      process_detection_counts, process_detection_in_roi, Hv. auto. }
  destruct (Hgen s0) as (-> & -> & -> & ->); auto.
Qed.

Lemma process_detection_grows (self : Counter) (d : Detection) (c : string) :
  let r := process_detection self d in
  size (seen_ids r.1) = (size (seen_ids self) + length r.2)%nat
  ∧ map out_total r.2 = seq (S (size (seen_ids self))) (length r.2)
  ∧ default 0 (vehicle_counts r.1 !! c)
    = default 0 (vehicle_counts self !! c) + Z.of_nat (times_class c r.2).
Proof.
  cbv zeta.
  rewrite process_detection_out, process_detection_seen, process_detection_counts.
  unfold times_class.
  destruct (is_vehicle_in_roi self (box d)); simpl; [|repeat split; lia].
  destruct (decide (track_id d ∈ seen_ids self)) as [Hin|Hnew].
  - rewrite bool_decide_eq_false_2 by tauto. simpl.
    rewrite subseteq_union_1_L by (by apply singleton_subseteq_l).
    repeat split; lia.
  - rewrite bool_decide_eq_true_2 by assumption. simpl.
    rewrite size_add_fresh by assumption.
    split; [lia|]. split; [reflexivity|].
    rewrite filter_cons, filter_nil. simpl.
    set (cn := default "unknown" (vehicle_classes !! cls d)).
    destruct (decide (cn = c)) as [->|Hne].
    + rewrite lookup_insert_eq. simpl. lia.
    + rewrite lookup_insert_ne by assumption. simpl. lia.
Qed.

Lemma times_class_app (c : string) (o1 o2 : list Output) :
  times_class c (o1 ++ o2) = (times_class c o1 + times_class c o2)%nat.
Proof. unfold times_class. by rewrite filter_app, length_app. Qed.

Lemma process_detections_grows (self : Counter) (ds : list Detection) (c : string) :
  let r := process_detections self ds in
  size (seen_ids r.1) = (size (seen_ids self) + length r.2)%nat
  ∧ map out_total r.2 = seq (S (size (seen_ids self))) (length r.2)
  ∧ default 0 (vehicle_counts r.1 !! c)
    = default 0 (vehicle_counts self !! c) + Z.of_nat (times_class c r.2).
Proof.
  revert self. induction ds as [|d ds IH]; intros self; cbv zeta.
  - cbn. repeat split; lia.
  - rewrite process_detections_cons. cbn [fst snd].
    destruct (process_detection_grows self d c) as (H1 & H2 & H3).
    destruct (IH (process_detection self d).1) as (H1' & H2' & H3').
    rewrite map_app, length_app, times_class_app, seq_app, H1', H2', H3', H2, H3, H1.
    repeat split; try lia; try (do 2 f_equal; lia).
Qed.

Lemma process_frame_grows (self : Counter) (r : TrackResult) (c : string) :
  let res := process_frame self r in
  size (seen_ids res.1) = (size (seen_ids self) + length res.2)%nat
  ∧ map out_total res.2 = seq (S (size (seen_ids self))) (length res.2)
  ∧ default 0 (vehicle_counts res.1 !! c)
    = default 0 (vehicle_counts self !! c) + Z.of_nat (times_class c res.2).
Proof.
  unfold process_frame. destruct r as [ds|]; cbv zeta.
  - match goal with |- context [process_detections ?s ds] =>
      exact (process_detections_grows s ds c) end.
  - cbn. repeat split; lia.
Qed.

(** X5: over any run of frames the number of lines printed is the growth of
    [seen_ids], and the totals they show count up one by one from the
    size [seen_ids] had before. *)
Theorem announced_totals (self : Counter) (frames : list TrackResult) :
  let r := process_frames self frames in
  size (seen_ids r.1) = (size (seen_ids self) + length r.2)%nat
  ∧ map out_total r.2 = seq (S (size (seen_ids self))) (length r.2).
Proof.
  revert self. induction frames as [|f frames IH]; intros self; cbv zeta.
  - cbn. split; [lia | reflexivity].
  - rewrite process_frames_cons. cbn [fst snd].
    destruct (process_frame_grows self f "") as (H1 & H2 & _).
    destruct (IH (process_frame self f).1) as (H1' & H2').
    rewrite map_app, length_app, seq_app, H1', H2', H2, H1.
    split; [lia|]. try reflexivity; do 2 f_equal; lia.
Qed.

(** X6: over any run of frames the count of every class grows by the number
    of lines printed for that class; no count ever goes down. *)
Theorem class_count_tally (self : Counter) (frames : list TrackResult) (c : string) :
  let r := process_frames self frames in
  default 0 (vehicle_counts r.1 !! c)
  = default 0 (vehicle_counts self !! c) + Z.of_nat (times_class c r.2)
  ∧ default 0 (vehicle_counts self !! c) ≤ default 0 (vehicle_counts r.1 !! c).
Proof.
  cbv zeta.
  assert (H : default 0 (vehicle_counts (process_frames self frames).1 !! c)
    = default 0 (vehicle_counts self !! c)
      + Z.of_nat (times_class c (process_frames self frames).2)).
  { revert self. induction frames as [|f frames IH]; intros self.
    - cbn. lia.
    - rewrite process_frames_cons. cbn [fst snd].
      destruct (process_frame_grows self f c) as (_ & _ & H3).
      rewrite IH, H3, times_class_app. lia. }
  split; [exact H | lia].
Qed.

(** X7: counted identities stay counted: [seen_ids] only grows while frames
    are processed. *)
Theorem seen_ids_monotone (self : Counter) (frames : list TrackResult) :
  seen_ids self ⊆ seen_ids (process_frames self frames).1.
Proof.
  intros id Hid. apply process_frames_seen. by left.
Qed.

(** ** The contents of the snapshots, continued *)

(** X8: after a frame the all-vehicles snapshot holds, for every identity of
    the frame, the record of its last detection in the frame, and nothing
    else; the in-ROI snapshot holds the record of the identity's last
    detection classified in-ROI. *)
Theorem snapshot_contents (self : Counter) (ds : list Detection) (id : Z) :
  let self' := (process_frame self (Some ds)).1 in
  current_vehicles_in_frame self' !! id
  = info_of <$> last (filter (λ d, track_id d = id) ds)
  ∧ current_vehicles_in_roi self' !! id
  = info_of <$> last (filter (λ d, track_id d = id
                                   ∧ is_vehicle_in_roi self (box d) = true) ds).
Proof. apply process_frame_snapshots_lookup. Qed.

Lemma in_roi_snapshot_iff (self : Counter) (ds : list Detection) (id : Z) :
  is_Some (current_vehicles_in_roi (process_frame self (Some ds)).1 !! id)
  ↔ in_roi_in self id ds.
Proof.
  rewrite (proj2 (process_frame_snapshots_lookup self ds id)).
  rewrite fmap_is_Some, last_is_Some. unfold in_roi_in. split.
  - intros Hne.
    destruct (filter (λ d, track_id d = id ∧ is_vehicle_in_roi self (box d) = true) ds)
      as [|d l] eqn:Hf; [done|].
    assert (Hin : d ∈ filter (λ d, track_id d = id
                    ∧ is_vehicle_in_roi self (box d) = true) ds).
    { rewrite Hf. apply elem_of_cons. by left. }
    apply list_elem_of_filter in Hin as [[Hid Hv] Hin].
    exists d. auto.
  - intros (d & Hin & Hid & Hv) Hnil.
    assert (Hd : d ∈ filter (λ d, track_id d = id
                   ∧ is_vehicle_in_roi self (box d) = true) ds).
    { apply list_elem_of_filter. auto. }
    rewrite Hnil in Hd. by apply elem_of_nil in Hd.
Qed.

(** ** Frames that add nothing *)

Lemma process_detections_all_seen (self : Counter) (ds : list Detection) :
  (∀ d, d ∈ ds → is_vehicle_in_roi self (box d) = true → track_id d ∈ seen_ids self) →
  (process_detections self ds).2 = []
  ∧ seen_ids (process_detections self ds).1 = seen_ids self
  ∧ vehicle_counts (process_detections self ds).1 = vehicle_counts self.
Proof.
  revert self. induction ds as [|d ds IH]; intros self Hall; [by cbn|].
  rewrite process_detections_cons. cbn [fst snd].
  assert (Hd : is_vehicle_in_roi self (box d) && bool_decide (track_id d ∉ seen_ids self)
               = false).
  { destruct (is_vehicle_in_roi self (box d)) eqn:Hv; [|reflexivity]. simpl.
    apply bool_decide_eq_false_2. intros Hn. apply Hn, Hall; [|exact Hv].
    apply elem_of_cons. by left. }
  assert (Hs : seen_ids (process_detection self d).1 = seen_ids self).
  { rewrite process_detection_seen.
    destruct (is_vehicle_in_roi self (box d)) eqn:Hv; [|reflexivity].
    apply subseteq_union_1_L, singleton_subseteq_l, Hall; [|exact Hv].
    apply elem_of_cons. by left. }
  destruct (process_detection_roi self d) as [Hp Hdef].
  destruct (IH (process_detection self d).1) as (-> & -> & ->).
  { intros d' Hin Hv. rewrite Hs. apply Hall; [apply elem_of_cons; by right|].
    rewrite <- Hv. symmetry. by apply is_vehicle_in_roi_ext. }
  rewrite process_detection_out, process_detection_counts, Hd. auto.
Qed.

(** X9: handing the same tracker result to [process_frame] twice in a row
    counts nothing the second time. *)
Theorem reprocess_counts_nothing (self : Counter) (r : TrackResult) :
  let once := (process_frame self r).1 in
  let twice := process_frame once r in
  twice.2 = []
  ∧ seen_ids twice.1 = seen_ids once
  ∧ vehicle_counts twice.1 = vehicle_counts once.
Proof.
  cbv zeta. destruct r as [ds|]; [|by cbn].
  set (once := (process_frame self (Some ds)).1).
  unfold process_frame. cbv zeta.
  match goal with |- context [process_detections ?s ds] => set (s0 := s) end.
  destruct (process_frame_roi self (Some ds)) as [Hp Hd]. fold once in Hp, Hd.
  destruct (process_detections_all_seen s0 ds) as (-> & -> & ->); [|auto].
  intros d Hin Hv. change (seen_ids s0) with (seen_ids once).
  apply process_frame_seen. right. exists ds. split; [reflexivity|].
  exists d. repeat split; [exact Hin|].
  rewrite <- Hv. symmetry. apply is_vehicle_in_roi_ext.
  - change (roi_points s0) with (roi_points once). exact Hp.
  - change (roi_defined s0) with (roi_defined once). exact Hd.
Qed.

(** ** What the counting depends on *)

Lemma process_detection_same_counting (a b : Counter) (d : Detection) :
  same_counting a b →
  same_counting (process_detection a d).1 (process_detection b d).1
  ∧ (process_detection a d).2 = (process_detection b d).2.
Proof.
  intros (Hs & Hc & Hh & Hp & Hd).
  unfold same_counting.
  rewrite !process_detection_seen, !process_detection_counts,
    !process_detection_history, !process_detection_out.
  rewrite (proj1 (process_detection_roi a d)), (proj2 (process_detection_roi a d)).
  rewrite (proj1 (process_detection_roi b d)), (proj2 (process_detection_roi b d)).
  rewrite (is_vehicle_in_roi_ext a b (box d) Hp Hd), Hs, Hc, Hh.
  repeat split; assumption || reflexivity.
Qed.

Lemma process_detections_same_counting (a b : Counter) (ds : list Detection) :
  same_counting a b →
  same_counting (process_detections a ds).1 (process_detections b ds).1
  ∧ (process_detections a ds).2 = (process_detections b ds).2.
Proof.
  revert a b. induction ds as [|d ds IH]; intros a b Hab; [by cbn|].
  rewrite !process_detections_cons. cbn [fst snd].
  destruct (process_detection_same_counting a b d Hab) as [H1 ->].
  destruct (IH _ _ H1) as [H2 ->]. auto.
Qed.

Lemma process_frame_same_counting (a b : Counter) (r : TrackResult) :
  same_counting a b →
  same_counting (process_frame a r).1 (process_frame b r).1
  ∧ (process_frame a r).2 = (process_frame b r).2.
Proof.
  intros Hab. unfold process_frame. destruct r as [ds|]; [|by cbn].
  by apply process_detections_same_counting.
Qed.

Lemma run_loop_cons (self : Counter) (r : TrackResult) (k : Z)
    (frames : list (TrackResult * Z)) :
  run_loop self ((r, k) :: frames) =
    if is_quit k then process_frame self r
    else
      let s := if is_reset k then run_reset (process_frame self r).1
               else (process_frame self r).1 in
      ((run_loop s frames).1, (process_frame self r).2 ++ (run_loop s frames).2).
Proof.
  cbn [run_loop]. cbv zeta. unfold is_quit, is_reset.
  destruct (process_frame self r) as [s o]. cbn [fst snd].
  destruct (Z.land k 255 =? 113); [reflexivity|].
  destruct (Z.land k 255 =? 114).
  - destruct (run_loop (run_reset s) frames). reflexivity.
  - destruct (run_loop s frames). reflexivity.
Qed.

Lemma run_reset_same_counting (a b : Counter) :
  roi_points a = roi_points b → roi_defined a = roi_defined b →
  same_counting (run_reset a) (run_reset b).
Proof. intros Hp Hd. repeat split; assumption. Qed.

Lemma run_loop_same_counting (a b : Counter) (frames : list (TrackResult * Z)) :
  same_counting a b →
  same_counting (run_loop a frames).1 (run_loop b frames).1
  ∧ (run_loop a frames).2 = (run_loop b frames).2.
Proof.
  revert a b. induction frames as [|[r k] frames IH]; intros a b Hab; [by cbn|].
  rewrite !run_loop_cons.
  destruct (process_frame_same_counting a b r Hab) as [H1 Ho].
  destruct (is_quit k); [auto|]. cbv zeta. cbn [fst snd]. rewrite Ho.
  destruct (is_reset k).
  - destruct (IH (run_reset (process_frame a r).1) (run_reset (process_frame b r).1))
      as [H2 ->]; [|auto].
    destruct H1 as (_ & _ & _ & Hp & Hd). by apply run_reset_same_counting.
  - destruct (IH _ _ H1) as [H2 ->]. auto.
Qed.

(** X10: the counts, the trajectories and the printed lines of a run depend
    on the counted identities, the per-class counts, the trajectories and
    the ROI at its start, and on nothing else: not on the snapshots left
    by an earlier frame, nor on [frame_count]. *)
Theorem counting_ignores_display_state (a b : Counter)
    (frames : list (TrackResult * Z)) :
  same_counting a b →
  same_counting (run_loop a frames).1 (run_loop b frames).1
  ∧ (run_loop a frames).2 = (run_loop b frames).2.
Proof. apply run_loop_same_counting. Qed.

(** ** The loop of [run] *)

Lemma run_loop_frame_count_reset (self : Counter) :
  frame_count (run_reset self) = frame_count self.
Proof. reflexivity. Qed.

(** X11: ['q'] ends the loop: the frames after the first one answered with
    ['q'] are never processed, and [frame_count] advances by exactly the
    number of frames up to and including that one; a reset in between
    does not set it back. *)
Theorem run_loop_until_quit (self : Counter) (frames : list (TrackResult * Z)) :
  run_loop self frames = run_loop self (until_quit frames)
  ∧ frame_count (run_loop self frames).1
    = frame_count self + Z.of_nat (length (until_quit frames)).
Proof.
  revert self. induction frames as [|[r k] frames IH]; intros self.
  - cbn. split; [reflexivity | lia].
  - cbn [until_quit]. destruct (is_quit k) eqn:Hq.
    + rewrite !run_loop_cons, Hq. split; [reflexivity|].
      rewrite process_frame_frame_count. simpl length. lia.
    + rewrite !run_loop_cons, Hq. cbv zeta. cbn [fst snd].
      set (s := if is_reset k then run_reset (process_frame self r).1
                else (process_frame self r).1).
      destruct (IH s) as [He Hc]. rewrite <- He. split; [reflexivity|].
      rewrite Hc. simpl length.
      assert (frame_count s = frame_count self + 1) as ->; [|lia].
      subst s. destruct (is_reset k);
        [rewrite run_loop_frame_count_reset|]; apply process_frame_frame_count.
Qed.

Lemma run_loop_app (self : Counter) (pre post : list (TrackResult * Z)) :
  forallb (λ f, negb (is_quit f.2)) pre = true →
  run_loop self (pre ++ post) =
    ((run_loop (run_loop self pre).1 post).1,
     (run_loop self pre).2 ++ (run_loop (run_loop self pre).1 post).2).
Proof.
  revert self. induction pre as [|[r k] pre IH]; intros self Hq.
  - cbn. by destruct (run_loop self post).
  - cbn [forallb snd] in Hq. apply andb_true_iff in Hq as [Hk Hpre].
    apply negb_true_iff in Hk.
    rewrite <- app_comm_cons, !run_loop_cons, Hk. cbv zeta. cbn [fst snd].
    rewrite IH by assumption. cbn [fst snd]. by rewrite app_assoc.
Qed.

(** X12: a reset makes the run forget what came before it: when a frame is
    answered with ['r'] (and no frame before it with ['q']), the counted
    identities, the counts and the trajectories at the end of the loop
    are those of a loop over the remaining frames alone, started from the
    reset counter. *)
Theorem reset_restarts_counting (self : Counter) (pre post : list (TrackResult * Z))
    (r : TrackResult) (k : Z) :
  forallb (λ f, negb (is_quit f.2)) pre = true →
  is_quit k = false → is_reset k = true →
  same_counting (run_loop self (pre ++ (r, k) :: post)).1
                (run_loop (run_reset self) post).1
  ∧ (run_loop self (pre ++ (r, k) :: post)).2
    = (run_loop self (pre ++ [(r, k)])).2 ++ (run_loop (run_reset self) post).2.
Proof.
  intros Hpre Hq Hr.
  change ((r, k) :: post) with ([(r, k)] ++ post).
  rewrite app_assoc.
  assert (Hpre' : forallb (λ f, negb (is_quit f.2)) (pre ++ [(r, k)]) = true).
  { rewrite forallb_app, Hpre. cbn. by rewrite Hq. }
  rewrite (run_loop_app self (pre ++ [(r, k)]) post Hpre'). cbn [fst snd].
  assert (Hsame : same_counting (run_loop self (pre ++ [(r, k)])).1 (run_reset self)).
  { rewrite (run_loop_app self pre [(r, k)] Hpre). cbn [fst].
    rewrite run_loop_cons, Hq, Hr. cbn.
    destruct (run_loop_roi self pre) as [Hp Hd].
    destruct (process_frame_roi (run_loop self pre).1 r) as [Hp' Hd'].
    apply run_reset_same_counting; congruence. }
  destruct (run_loop_same_counting _ _ post Hsame) as [H1 ->]. auto.
Qed.

(** ** Trajectories that continue *)

(** X13: processing frames extends a trajectory that is already there: the
    new trajectory is made of the last 30 points of the old one followed
    by the new sightings; an identity that is not sighted keeps its
    trajectory. *)
Theorem history_continues (self : Counter) (frames : list TrackResult) (id : Z) :
  history_inv self →
  let h := default [] (track_history self !! id) in
  let h' := default [] (track_history (process_frames self frames).1 !! id) in
  h' = last_n 30 (h ++ sightings id frames)
  ∧ (sightings id frames = [] → h' = h).
Proof.
  intros Hinv h h'.
  assert (Hlen : (length h ≤ 30)%nat).
  { subst h. destruct (track_history self !! id) as [l|] eqn:E; simpl.
    - by apply (Hinv id).
    - lia. }
  assert (Hh : h' = last_n 30 (h ++ sightings id frames)).
  { subst h'. rewrite process_frames_history_of.
    by apply record_sightings_last_n. }
  split; [exact Hh|].
  intros Hnone. rewrite Hh, Hnone, app_nil_r. by apply last_n_short.
Qed.

(** ** The ROI dialog *)

Lemma set_roi_points_same (self : Counter) :
  set_roi_points (roi_points self) self = self.
Proof. by destruct self. Qed.

(** X14: a right click takes back the point of the left click before it; on
    an empty list of points it does nothing. *)
Theorem right_click_undoes_left_click (self : Counter) (x y : Z) (evs : list UIEvent) :
  mouse_callback (mouse_callback self (LButtonDown x y)) RButtonDown = self
  ∧ roi_dialog self (LButtonDown x y :: RButtonDown :: evs) = roi_dialog self evs
  ∧ (roi_points self = [] → mouse_callback self RButtonDown = self).
Proof.
  assert (H : mouse_callback (mouse_callback self (LButtonDown x y)) RButtonDown = self).
  { unfold mouse_callback. cbn [roi_points set_roi_points].
    destruct (roi_points self ++ [(x, y)]) as [|p l] eqn:E.
    - by destruct (roi_points self).
    - rewrite <- E. unfold pop_last. rewrite removelast_last.
      destruct self. reflexivity. }
  split; [exact H|]. split.
  - cbn [roi_dialog]. by rewrite H.
  - intros Hnil. unfold mouse_callback. by rewrite Hnil.
Qed.

Lemma mouse_callback_frame (self : Counter) (e : UIEvent) :
  let self' := mouse_callback self e in
  track_history self' = track_history self
  ∧ seen_ids self' = seen_ids self
  ∧ vehicle_counts self' = vehicle_counts self
  ∧ current_vehicles_in_frame self' = current_vehicles_in_frame self
  ∧ current_vehicles_in_roi self' = current_vehicles_in_roi self
  ∧ roi_defined self' = roi_defined self
  ∧ frame_count self' = frame_count self.
Proof.
  destruct e; cbn; try done. by destruct (roi_points self).
Qed.

Lemma roi_dialog_frame (self self' : Counter) (evs : list UIEvent) :
  roi_dialog self evs = Some self' →
  track_history self' = track_history self
  ∧ seen_ids self' = seen_ids self
  ∧ vehicle_counts self' = vehicle_counts self
  ∧ current_vehicles_in_frame self' = current_vehicles_in_frame self
  ∧ current_vehicles_in_roi self' = current_vehicles_in_roi self
  ∧ frame_count self' = frame_count self
  ∧ (roi_defined self' = roi_defined self
     ∨ roi_defined self' = true ∧ (3 ≤ length (roi_points self'))%nat).
Proof.
  revert self. induction evs as [|e evs IH]; intros self; [done|].
  assert (Hmouse : roi_dialog (mouse_callback self e) evs = Some self' →
    track_history self' = track_history self
    ∧ seen_ids self' = seen_ids self
    ∧ vehicle_counts self' = vehicle_counts self
    ∧ current_vehicles_in_frame self' = current_vehicles_in_frame self
    ∧ current_vehicles_in_roi self' = current_vehicles_in_roi self
    ∧ frame_count self' = frame_count self
    ∧ (roi_defined self' = roi_defined self
       ∨ roi_defined self' = true ∧ (3 ≤ length (roi_points self'))%nat)).
  { intros H. apply IH in H.
    destruct (mouse_callback_frame self e) as (<- & <- & <- & <- & <- & <- & <-).
    exact H. }
  destruct e as [x y| | |k]; cbn [roi_dialog]; try exact Hmouse.
  cbv zeta. destruct (Z.land k 255 =? 32).
  - destruct (confirm_roi self) as [s|] eqn:Hc; [|apply IH].
    intros [= <-]. pose proof (confirm_roi_inv _ _ Hc) as Hinv.
    unfold confirm_roi in Hc.
    destruct (3 <=? length (roi_points self))%nat; [|done].
    injection Hc as <-. repeat split; try reflexivity. by right.
  - destruct (Z.land k 255 =? 27); [|apply IH].
    intros [= <-]. repeat split; try reflexivity. by left.
Qed.

(** X15: the dialog writes the ROI and nothing else: the counted identities,
    the counts, the trajectories, the snapshots and [frame_count] come
    out as they went in; [roi_defined] either keeps its value or is set
    with at least three points. *)
Theorem define_roi_interactive_frame (self self' : Counter) (evs : list UIEvent) :
  define_roi_interactive self evs = Some self' →
  track_history self' = track_history self
  ∧ seen_ids self' = seen_ids self
  ∧ vehicle_counts self' = vehicle_counts self
  ∧ current_vehicles_in_frame self' = current_vehicles_in_frame self
  ∧ current_vehicles_in_roi self' = current_vehicles_in_roi self
  ∧ frame_count self' = frame_count self
  ∧ (roi_defined self' = roi_defined self
     ∨ roi_defined self' = true ∧ (3 ≤ length (roi_points self'))%nat).
Proof.
  unfold define_roi_interactive. intros H.
  apply roi_dialog_frame in H. exact H.
Qed.

Lemma roi_dialog_escape (self : Counter) (evs : list UIEvent) (k : Z) :
  WaitKey k ∈ evs → Z.land k 255 = 27 → is_Some (roi_dialog self evs).
Proof.
  intros Hin Hk. revert self.
  induction evs as [|e evs IH]; intros self; [by apply elem_of_nil in Hin|].
  apply elem_of_cons in Hin as [<-|Hin].
  - cbn [roi_dialog]. cbv zeta. rewrite Hk. cbn. eauto.
  - specialize (IH Hin).
    destruct e as [x y| | |k']; cbn [roi_dialog]; try apply IH.
    cbv zeta. destruct (Z.land k' 255 =? 32).
    + destruct (confirm_roi self); [eauto | apply IH].
    + destruct (Z.land k' 255 =? 27); [eauto | apply IH].
Qed.

Lemma roi_dialog_waits (self : Counter) (evs : list UIEvent) :
  (∀ k, WaitKey k ∈ evs → Z.land k 255 ≠ 32 ∧ Z.land k 255 ≠ 27) →
  roi_dialog self evs = None.
Proof.
  revert self. induction evs as [|e evs IH]; intros self Hkeys; [reflexivity|].
  assert (Hrest : ∀ k, WaitKey k ∈ evs → Z.land k 255 ≠ 32 ∧ Z.land k 255 ≠ 27).
  { intros k Hin. apply Hkeys, elem_of_cons. by right. }
  destruct e as [x y| | |k]; cbn [roi_dialog]; try by apply IH.
  cbv zeta. destruct (Hkeys k) as [H32 H27]; [apply elem_of_cons; by left|].
  apply Z.eqb_neq in H32, H27. rewrite H32, H27. by apply IH.
Qed.

(** X16: the dialog ends as soon as ESC arrives, whatever was clicked before;
    and it does not end as long as neither SPACE nor ESC arrives. *)
Theorem dialog_ends_on_escape (self : Counter) (evs : list UIEvent) :
  ((∃ k, WaitKey k ∈ evs ∧ Z.land k 255 = 27) →
   is_Some (define_roi_interactive self evs))
  ∧ ((∀ k, WaitKey k ∈ evs → Z.land k 255 ≠ 32 ∧ Z.land k 255 ≠ 27) →
     define_roi_interactive self evs = None).
Proof.
  unfold define_roi_interactive. split.
  - intros (k & Hin & Hk). by apply (roi_dialog_escape _ evs k).
  - apply roi_dialog_waits.
Qed.

(** ** Setting up a run *)

(** The two automatic polygons of a 1280x720 frame. *)
Lemma auto_roi_720p (self : Counter) :
  roi_points (create_rectangular_roi self 720 1280)
  = [(128, 108); (1152, 108); (1152, 612); (128, 612)]
  ∧ roi_points (auto_define_roi self 720 1280)
  = [(640, 108); (1152, 360); (640, 612); (128, 360)].
Proof. split; reflexivity. Qed.



(** ** The automatic polygons *)

Lemma int_margin_x (width : Z) :
  0 ≤ width → int (inject_Z width * (1 # 10)) = width / 10.
Proof.
  intros H. unfold int. cbn. rewrite Z.mul_1_r.
  by apply Z.quot_div_nonneg.
Qed.

Lemma int_margin_y (height : Z) :
  0 ≤ height → int (inject_Z height * (15 # 100)) = height * 15 / 100.
Proof.
  intros H. unfold int. cbn.
  apply Z.quot_div_nonneg; lia.
Qed.

(** X19: for a frame of any size the rectangle is an axis-parallel rectangle
    inside the frame, and the rhombus has one vertex on each side of that
    rectangle: top, right, bottom, left. *)
Theorem auto_roi_geometry (self : Counter) (height width : Z) :
  0 ≤ height → 0 ≤ width →
  ∃ x0 y0 x1 y1 cx cy,
    roi_points (create_rectangular_roi self height width)
    = [(x0, y0); (x1, y0); (x1, y1); (x0, y1)]
    ∧ roi_points (auto_define_roi self height width)
    = [(cx, y0); (x1, cy); (cx, y1); (x0, cy)]
    ∧ 0 ≤ x0 ≤ cx ∧ cx ≤ x1 ≤ width
    ∧ 0 ≤ y0 ≤ cy ∧ cy ≤ y1 ≤ height
    ∧ x0 = width - x1 ∧ y0 = height - y1.
Proof.
  intros Hh Hw.
  exists (width / 10), (height * 15 / 100), (width - width / 10),
    (height - height * 15 / 100), (width / 2), (height / 2).
  unfold create_rectangular_roi, auto_define_roi. cbv zeta.
  cbn [roi_points set_roi_points set_roi_defined].
  rewrite !int_margin_x, !int_margin_y by assumption.
  repeat split; try reflexivity;
    try (Z.to_euclidean_division_equations; lia).
Qed.

(** ** What is drawn *)

(** X20: the box of a detection is drawn green and thick exactly when its
    identity has a detection classified in-ROI on this frame; in
    particular every detection classified in-ROI is drawn so. *)
Theorem annotation_follows_classification (self : Counter) (ds : list Detection)
    (d : Detection) :
  d ∈ ds →
  let a := annotate (process_frame self (Some ds)).1 d in
  a ∈ process_frame_annotations self (Some ds)
  ∧ (ann_in_roi a = true ↔ in_roi_in self (track_id d) ds)
  ∧ (is_vehicle_in_roi self (box d) = true → ann_in_roi a = true)
  ∧ (ann_in_roi a = true → ann_color a = (0, 255, 0) ∧ ann_thickness a = 3)
  ∧ (ann_in_roi a = false →
     ann_color a = (128, 128, 128) ∧ ann_thickness a = 1 ∧ ann_trajectory a = None).
Proof.
  intros Hin a.
  assert (Hiff : ann_in_roi a = true ↔ in_roi_in self (track_id d) ds).
  { subst a. unfold annotate. cbn [ann_in_roi].
    rewrite bool_decide_eq_true. apply in_roi_snapshot_iff. }
  split; [|split; [exact Hiff|split; [|split]]].
  - unfold process_frame_annotations, draw_annotations.
    apply list_elem_of_fmap. by exists d.
  - intros Hv. apply Hiff. exists d. auto.
  - subst a. unfold annotate. cbn. by intros ->.
  - subst a. unfold annotate. cbn. by intros ->.
Qed.

(** X21: a trajectory is drawn only for a box drawn as in-ROI, and it is the
    stored trajectory of the identity: between 2 and 30 points. *)
Theorem drawn_trajectory (self : Counter) (ds : list Detection) (d : Detection)
    (pts : list (Z * Z)) :
  history_inv self →
  let self' := (process_frame self (Some ds)).1 in
  ann_trajectory (annotate self' d) = Some pts →
  ann_in_roi (annotate self' d) = true
  ∧ track_history self' !! track_id d = Some pts
  ∧ (2 ≤ length pts ≤ 30)%nat.
Proof.
  intros Hinv self'. unfold annotate. cbn [ann_trajectory ann_in_roi].
  destruct (bool_decide (is_Some (current_vehicles_in_roi self' !! track_id d)));
    [|done].
  destruct (track_history self' !! track_id d) as [h|] eqn:Hh;
    cbn [default from_option id]; [|done].
  destruct (Nat.ltb_spec 1 (length h)) as [Hlen|Hlen]; [|done].
  intros [= <-]. split; [reflexivity|]. split; [reflexivity|]. split; [lia|].
  apply (process_frame_history_inv self (Some ds) Hinv (track_id d) h Hh).
Qed.

(** ** What the statistics panel shows *)

Lemma process_detections_frame_size (self : Counter) (ds : list Detection) :
  (size (current_vehicles_in_frame (process_detections self ds).1)
   ≤ size (current_vehicles_in_frame self) + length ds)%nat.
Proof.
  revert self. induction ds as [|d ds IH]; intros self;
    [cbn [process_detections fst length]; lia|].
  rewrite process_detections_cons. cbn [fst length].
  specialize (IH (process_detection self d).1).
  rewrite process_detection_in_frame in IH.
  rewrite map_size_insert in IH.
  destruct (current_vehicles_in_frame self !! track_id d); unfold id in IH; lia.
Qed.

(** X22: after a frame the panel shows no more vehicles in the ROI than in
    the frame, no more vehicles in the frame than the tracker reported,
    and a total that grew by at most the number shown in the ROI. *)
Theorem statistics_bounds (self : Counter) (ds : list Detection) :
  let self' := (process_frame self (Some ds)).1 in
  (current_roi_count self' ≤ current_total_count self')%nat
  ∧ (current_total_count self' ≤ length ds)%nat
  ∧ (total_unique_count self ≤ total_unique_count self')%nat
  ∧ (total_unique_count self' ≤ total_unique_count self + current_roi_count self')%nat.
Proof.
  unfold process_frame, current_roi_count, current_total_count, total_unique_count.
  cbv zeta.
  match goal with |- context [process_detections ?s ds] => set (s0 := s) end.
  destruct (process_detections_snapshots s0 ds) as (_ & Hsub & Hmono & Hnew).
  change (seen_ids s0) with (seen_ids self) in Hmono, Hnew.
  split; [|split; [|split]].
  - rewrite <- !size_dom. apply subseteq_size, Hsub. reflexivity.
  - pose proof (process_detections_frame_size s0 ds) as H.
    change (current_vehicles_in_frame s0) with (∅ : gmap Z VehicleInfo) in H.
    rewrite map_size_empty in H. lia.
  - by apply subseteq_size.
  - rewrite <- (size_dom (current_vehicles_in_roi _)).
    apply subseteq_size in Hnew.
    rewrite size_difference in Hnew by exact Hmono. lia.
Qed.

End Core.

(** ** The core at work on the sample inputs *)

(** The state after [sample_ops], computed with the even-odd test. *)
Example sample_ops_counts :
  let self := default init (apply_ops even_odd_test init sample_ops) in
  elements (seen_ids self) = [11]
  ∧ map_to_list (vehicle_counts self) = [("bus", 1)].
Proof. vm_compute. split; reflexivity. Qed.

(** The scenario of the square ROI: identity 7 is counted on the first
    frame and not again when it reappears outside; its trajectory gets a
    second point. *)
Example square_scenario :
  let r := process_frames even_odd_test (counter_with_roi square_roi)
             [Some [det_inside]; Some [det_outside]] in
  r.2 = [NewVehicle "car" 7 1]
  ∧ elements (seen_ids r.1) = [7]
  ∧ vehicle_counts r.1 !! "car" = Some 1
  ∧ track_history r.1 !! 7 = Some [(50, 50); (210, 210)].
Proof. vm_compute. repeat split; reflexivity. Qed.

(** Two new identities inside the ROI on one frame are both counted. *)
Example two_in_one_frame :
  let r := process_frame even_odd_test (counter_with_roi square_roi)
             (Some [det_inside; det_truck]) in
  r.2 = [NewVehicle "car" 7 1; NewVehicle "truck" 8 2]
  ∧ size (seen_ids r.1) = 2%nat.
Proof. vm_compute. split; reflexivity. Qed.

Lemma counted_at_most_once_witness :
  let self := counter_with_roi square_roi in
  let frames := [Some [det_inside]; Some [det_outside]; Some [det_inside; det_truck]] in
  let r := process_frames even_odd_test self frames in
  (times_counted 7 r.2 ≤ 1)%nat
  ∧ (times_counted 7 r.2 = 1%nat ↔ ever_in_roi even_odd_test self 7 frames)
  ∧ (7 ∈ seen_ids r.1 ↔ ever_in_roi even_odd_test self 7 frames).
Proof.
  apply (counted_at_most_once even_odd_test (counter_with_roi square_roi)).
  reflexivity.
Defined.

Lemma is_vehicle_in_roi_threshold_witness :
  is_vehicle_in_roi even_odd_test (counter_with_roi triangle_roi) (box_of 40 40 80 80) = true
  ∧ is_vehicle_in_roi even_odd_test (counter_with_roi square_roi) (box_of 60 80 120 130) = false.
Proof.
  split.
  - apply (is_vehicle_in_roi_threshold even_odd_test (counter_with_roi triangle_roi)
             (inject_Z 40) (inject_Z 40) (inject_Z 80) (inject_Z 80));
      [reflexivity | simpl; lia | vm_compute; reflexivity].
  - apply (is_vehicle_in_roi_threshold even_odd_test (counter_with_roi square_roi)
             (inject_Z 60) (inject_Z 80) (inject_Z 120) (inject_Z 130));
      [reflexivity | simpl; lia | vm_compute; reflexivity].
Defined.

Lemma sum_invariant_witness :
  let self := default init (apply_ops even_odd_test init sample_ops) in
  sum_counts (vehicle_counts self) = Z.of_nat (size (seen_ids self)).
Proof.
  apply (sum_invariant even_odd_test sample_ops).
  vm_compute. reflexivity.
Defined.

Lemma history_bound_witness :
  let self := default init (apply_ops even_odd_test init sample_ops) in
  let h := default [] (track_history (process_frames even_odd_test self forty_frames).1 !! 7) in
  history_inv self
  ∧ length h = 30%nat
  ∧ h = drop 10 (sightings 7 forty_frames).
Proof.
  cbv zeta.
  destruct (history_bound even_odd_test sample_ops
              (default init (apply_ops even_odd_test init sample_ops)))
    as [Hinv Hlast]; [vm_compute; reflexivity|].
  split; [exact Hinv|].
  apply (Hlast forty_frames 7); reflexivity.
Defined.

Example forty_sightings :
  length (sightings 7 forty_frames) = 40%nat
  ∧ default [] (track_history (process_frames even_odd_test init forty_frames).1 !! 7)
    = map (λ i : nat, (Z.of_nat i + 10, 10)) (seq 10 30).
Proof. vm_compute. split; reflexivity. Qed.

Lemma fail_open_default_witness :
  (∀ b : Box, is_vehicle_in_roi even_odd_test init b = true)
  ∧ (∀ p : Point, is_point_in_roi even_odd_test init p = true).
Proof. apply (fail_open_default even_odd_test init). reflexivity. Defined.

Lemma malformed_detection_processed_witness :
  let self := counter_with_roi square_roi in
  let ds := [det_inverted; det_truck] in
  let self' := (process_frame even_odd_test self (Some ds)).1 in
  9 ∈ dom (current_vehicles_in_frame self')
  ∧ 9 ∈ dom (track_history self')
  ∧ (is_vehicle_in_roi even_odd_test self (box det_inverted) = true →
     9 ∈ dom (current_vehicles_in_roi self') ∧ 9 ∈ seen_ids self')
  ∧ (∀ d', d' ∈ ds →
     track_id d' ∈ dom (current_vehicles_in_frame self')
     ∧ track_id d' ∈ dom (track_history self')).
Proof.
  apply (malformed_detection_processed even_odd_test (counter_with_roi square_roi)
           [det_inverted; det_truck] det_inverted).
  - apply elem_of_cons. by left.
  - left. unfold Qlt. simpl. lia.
Defined.

(** C5, where the claim fails: after a frame with one detection the
    reset branch leaves both snapshots populated. *)
Lemma reset_clears_all_counterexample :
  let self := (process_frame even_odd_test (counter_with_roi square_roi)
                 (Some [det_inside])).1 in
  current_vehicles_in_frame (run_reset self) !! 7
    = Some (mkVehicleInfo "car" (box_of 40 40 60 60) (9 # 10))
  ∧ current_vehicles_in_roi (run_reset self) !! 7
    = Some (mkVehicleInfo "car" (box_of 40 40 60 60) (9 # 10))
  ∧ ¬ reset_clears_all self.
Proof.
  cbv zeta. split; [|split].
  - vm_compute. reflexivity.
  - vm_compute. reflexivity.
  - intros (_ & _ & _ & H & _).
    apply (f_equal (λ m : gmap Z VehicleInfo, m !! 7)) in H.
    vm_compute in H. discriminate H.
Qed.

(** C8, where the claim fails: a detection with an inverted box is
    counted and stored, and nothing signals a rejection. *)
Lemma malformed_rejected_counterexample :
  let self := counter_with_roi square_roi in
  let r := process_frame even_odd_test self (Some [det_inverted; det_truck]) in
  malformed (box det_inverted)
  ∧ r.2 = [NewVehicle "car" 9 1; NewVehicle "truck" 8 2]
  ∧ 9 ∈ seen_ids r.1
  ∧ vehicle_counts r.1 !! "car" = Some 1
  ∧ current_vehicles_in_frame r.1 !! 9
    = Some (mkVehicleInfo "car" (box_of 60 60 40 40) (9 # 10))
  ∧ track_history r.1 !! 9 = Some [(50, 50)]
  ∧ ¬ neither_counted_nor_stored self r.1 det_inverted.
Proof.
  cbv zeta. split; [|split; [|split; [|split; [|split; [|split]]]]].
  - left. unfold Qlt. simpl. lia.
  - vm_compute. reflexivity.
  - apply elem_of_elements. vm_compute. apply elem_of_cons. by left.
  - vm_compute. reflexivity.
  - vm_compute. reflexivity.
  - vm_compute. reflexivity.
  - intros (_ & _ & _ & H & _). vm_compute in H. discriminate H.
Qed.

Lemma roi_defined_invariant_witness :
  let dialog := default init (define_roi_interactive init three_clicks) in
  let final := (default (init, []) (run even_odd_test init sample_source "interactive")).1 in
  roi_points dialog = [(100, 100); (900, 120); (520, 640)]
  ∧ roi_inv dialog
  ∧ roi_defined final = true
  ∧ roi_inv final.
Proof.
  cbv zeta.
  destruct (roi_defined_invariant even_odd_test)
    as (_ & Hdialog & _ & _ & _ & _ & Hrun).
  split; [reflexivity|].
  split; [apply (Hdialog init _ three_clicks); reflexivity|].
  split; [reflexivity|].
  apply (Hrun sample_source "interactive" _
           (default (init, []) (run even_odd_test init sample_source "interactive")).2).
  vm_compute. reflexivity.
Defined.

(** ** Further properties on the sample inputs *)

Lemma degenerate_roi_accepts_all_witness :
  let self := default init (define_roi_interactive (counter_with_roi square_roi)
                              [WaitKey 27]) in
  roi_defined self = true
  ∧ roi_points self = []
  ∧ (∀ p : Point, is_point_in_roi even_odd_test self p = true)
  ∧ (∀ b : Box, is_vehicle_in_roi even_odd_test self b = true).
Proof.
  cbv zeta. split; [reflexivity|]. split; [reflexivity|].
  apply (degenerate_roi_accepts_all even_odd_test). vm_compute. lia.
Defined.

Lemma unknown_class_counted_witness :
  let self := counter_with_roi square_roi in
  let r := process_frame even_odd_test self (Some [det_unknown]) in
  r.2 = [NewVehicle "unknown" 12 1]
  ∧ vehicle_counts r.1 !! "unknown" = Some (default 0 (vehicle_counts self !! "unknown") + 1)
  ∧ current_vehicles_in_frame r.1 !! 12
    = Some (mkVehicleInfo "unknown" (box det_unknown) (conf det_unknown))
  ∧ current_vehicles_in_roi r.1 !! 12
    = Some (mkVehicleInfo "unknown" (box det_unknown) (conf det_unknown)).
Proof.
  apply (unknown_class_counted even_odd_test (counter_with_roi square_roi) det_unknown);
    try (cbn; lia).
  - vm_compute. reflexivity.
  - apply not_elem_of_empty.
Defined.

Lemma frame_outside_roi_counts_nothing_witness :
  let self := counter_with_roi square_roi in
  let r := process_frame even_odd_test self (Some [det_outside]) in
  r.2 = []
  ∧ seen_ids r.1 = seen_ids self
  ∧ vehicle_counts r.1 = vehicle_counts self
  ∧ current_vehicles_in_roi r.1 = ∅.
Proof.
  apply (frame_outside_roi_counts_nothing even_odd_test (counter_with_roi square_roi)
           [det_outside]).
  intros d Hin. apply list_elem_of_singleton in Hin as ->.
  vm_compute. reflexivity.
Defined.

Lemma counting_ignores_display_state_witness :
  let a := counter_with_roi square_roi in
  let b := set_frame_count 99 (process_frame even_odd_test a (Some [det_outside])).1 in
  let b := set_track_history ∅ b in
  same_counting (run_loop even_odd_test a sample_stream).1
                (run_loop even_odd_test b sample_stream).1
  ∧ (run_loop even_odd_test a sample_stream).2
    = (run_loop even_odd_test b sample_stream).2.
Proof.
  apply (counting_ignores_display_state even_odd_test).
  repeat split; reflexivity.
Defined.

Lemma reset_restarts_counting_witness :
  let self := counter_with_roi square_roi in
  let pre := [(Some [det_inside; det_truck], -1)] in
  let post := [(Some [det_truck; det_outside], 255); (None, 113)] in
  same_counting
    (run_loop even_odd_test self (pre ++ (Some [det_inside], 114) :: post)).1
    (run_loop even_odd_test (run_reset self) post).1
  ∧ (run_loop even_odd_test self (pre ++ (Some [det_inside], 114) :: post)).2
    = (run_loop even_odd_test self (pre ++ [(Some [det_inside], 114)])).2
      ++ (run_loop even_odd_test (run_reset self) post).2.
Proof.
  apply (reset_restarts_counting even_odd_test (counter_with_roi square_roi));
    reflexivity.
Defined.

Lemma history_continues_witness :
  let self := (process_frames even_odd_test init forty_frames).1 in
  let h := default [] (track_history self !! 7) in
  let frames := [Some [det_inside]; Some [det_truck]] in
  let h' := default [] (track_history (process_frames even_odd_test self frames).1 !! 7) in
  h' = last_n 30 (h ++ sightings 7 frames)
  ∧ (sightings 7 frames = [] → h' = h).
Proof.
  apply (history_continues even_odd_test
           (process_frames even_odd_test init forty_frames).1).
  apply process_frames_history_inv, init_history_inv.
Defined.

Lemma define_roi_interactive_frame_witness :
  let self := (process_frame even_odd_test init (Some [det_inside])).1 in
  let self' := default init (define_roi_interactive self three_clicks) in
  track_history self' = track_history self
  ∧ seen_ids self' = seen_ids self
  ∧ vehicle_counts self' = vehicle_counts self
  ∧ current_vehicles_in_frame self' = current_vehicles_in_frame self
  ∧ current_vehicles_in_roi self' = current_vehicles_in_roi self
  ∧ frame_count self' = frame_count self
  ∧ (roi_defined self' = roi_defined self
     ∨ roi_defined self' = true ∧ (3 ≤ length (roi_points self'))%nat).
Proof.
  apply (define_roi_interactive_frame _ _ three_clicks). vm_compute. reflexivity.
Defined.

Lemma dialog_ends_on_escape_witness :
  is_Some (define_roi_interactive init [LButtonDown 5 5; WaitKey 32; WaitKey 27])
  ∧ define_roi_interactive init [LButtonDown 5 5; WaitKey (-1); RButtonDown] = None.
Proof.
  split.
  - apply (dialog_ends_on_escape init [LButtonDown 5 5; WaitKey 32; WaitKey 27]).
    exists 27. split; [|reflexivity].
    apply elem_of_cons. right. apply elem_of_cons. right. apply elem_of_cons. by left.
  - apply (dialog_ends_on_escape init [LButtonDown 5 5; WaitKey (-1); RButtonDown]).
    intros k Hin.
    apply elem_of_cons in Hin as [Hin|Hin]; [discriminate Hin|].
    apply elem_of_cons in Hin as [Hin|Hin]; [injection Hin as ->; by cbn|].
    apply elem_of_cons in Hin as [Hin|Hin]; [discriminate Hin|].
    by apply elem_of_nil in Hin.
Defined.



Lemma auto_roi_geometry_witness :
  ∃ x0 y0 x1 y1 cx cy,
    roi_points (create_rectangular_roi init 480 640)
    = [(x0, y0); (x1, y0); (x1, y1); (x0, y1)]
    ∧ roi_points (auto_define_roi init 480 640)
    = [(cx, y0); (x1, cy); (cx, y1); (x0, cy)]
    ∧ 0 ≤ x0 ≤ cx ∧ cx ≤ x1 ≤ 640
    ∧ 0 ≤ y0 ≤ cy ∧ cy ≤ y1 ≤ 480
    ∧ x0 = 640 - x1 ∧ y0 = 480 - y1.
Proof. apply (auto_roi_geometry init 480 640); lia. Defined.

Lemma annotation_follows_classification_witness :
  let self := counter_with_roi square_roi in
  let ds := [det_inside; det_outside; det_truck] in
  let a := annotate (process_frame even_odd_test self (Some ds)).1 det_outside in
  a ∈ process_frame_annotations even_odd_test self (Some ds)
  ∧ (ann_in_roi a = true ↔ in_roi_in even_odd_test self 7 ds)
  ∧ (is_vehicle_in_roi even_odd_test self (box det_outside) = true → ann_in_roi a = true)
  ∧ (ann_in_roi a = true → ann_color a = (0, 255, 0) ∧ ann_thickness a = 3)
  ∧ (ann_in_roi a = false →
     ann_color a = (128, 128, 128) ∧ ann_thickness a = 1 ∧ ann_trajectory a = None).
Proof.
  apply (annotation_follows_classification even_odd_test (counter_with_roi square_roi)
           [det_inside; det_outside; det_truck] det_outside).
  apply elem_of_cons. right. apply elem_of_cons. by left.
Defined.

(** Identity 7 is in the frame twice, once inside and once outside the
    square: both of its boxes are drawn as in-ROI. *)
Example same_identity_twice :
  map ann_in_roi
    (process_frame_annotations even_odd_test (counter_with_roi square_roi)
       (Some [det_inside; det_outside; det_truck]))
  = [true; true; true]
  ∧ is_vehicle_in_roi even_odd_test (counter_with_roi square_roi) (box det_outside) = false.
Proof. vm_compute. split; reflexivity. Qed.

Lemma drawn_trajectory_witness :
  let self := (process_frame even_odd_test (counter_with_roi square_roi)
                 (Some [det_outside])).1 in
  let self' := (process_frame even_odd_test self (Some [det_inside])).1 in
  ann_trajectory (annotate self' det_inside) = Some [(210, 210); (50, 50)]
  ∧ ann_in_roi (annotate self' det_inside) = true
  ∧ track_history self' !! 7 = Some [(210, 210); (50, 50)]
  ∧ (2 ≤ length [(210, 210); (50, 50)] ≤ 30)%nat.
Proof.
  cbv zeta. split; [vm_compute; reflexivity|].
  apply (drawn_trajectory even_odd_test
           (process_frame even_odd_test (counter_with_roi square_roi)
              (Some [det_outside])).1 [det_inside] det_inside).
  - apply process_frame_history_inv. intros id h H.
    change (track_history (counter_with_roi square_roi))
      with (∅ : gmap Z (list (Z * Z))) in H.
    by rewrite lookup_empty in H.
  - vm_compute. reflexivity.
Defined.

(** The loop on [sample_stream]: the reset after the second frame drops
    identity 7 and recounts identity 8, the ['q'] after the fourth frame
    keeps the fifth from being processed. *)
Example sample_stream_run :
  let r := run_loop even_odd_test (counter_with_roi square_roi) sample_stream in
  r.2 = [NewVehicle "car" 7 1; NewVehicle "truck" 8 2; NewVehicle "truck" 8 1]
  ∧ elements (seen_ids r.1) = [8]
  ∧ frame_count r.1 = 4
  ∧ track_history r.1 !! 7 = Some [(210, 210)].
Proof. vm_compute. repeat split; reflexivity. Qed.

(** ** An abandoned re-definition

    [define_roi_interactive] empties [roi_points] when it starts and
    leaves [roi_defined] alone.  On a counter whose ROI is defined, ESC
    therefore ends the dialog with [roi_defined] still set and no
    vertices.  [run] then skips its fallback, although the dialog has
    just announced the auto-rhombus, and every box is counted. *)

(** C10: a first [run] with ['auto_rectangle'] leaves [roi_defined] with
    four vertices and does not count the car in the corner.  A second
    [run] of the same counter with ['interactive'], left with ESC,
    returns with [roi_defined] still true and [roi_points] empty, so
    [roi_defined] no longer implies three vertices, and the same car is
    now counted.  The same state is reached by the dialog alone after an
    automatic definition. *)
Theorem abandoned_redefinition :
  let first := default (init, []) (run even_odd_test init (corner_source []) "auto_rectangle") in
  let second := default (init, [])
                  (run even_odd_test first.1 (corner_source [WaitKey 27]) "interactive") in
  let dialog := default init
                  (apply_ops even_odd_test init
                     [OpAutoRhombus 720 1280; OpDefineInteractive [WaitKey 27]]) in
  (roi_defined first.1 = true ∧ length (roi_points first.1) = 4%nat ∧ roi_inv first.1)
  ∧ first.2 = []
  ∧ run even_odd_test first.1 (corner_source [WaitKey 27]) "interactive" = Some second
  ∧ (roi_defined second.1 = true ∧ roi_points second.1 = [] ∧ ¬ roi_inv second.1)
  ∧ second.2 = [NewVehicle "car" 13 1]
  ∧ apply_ops even_odd_test init
      [OpAutoRhombus 720 1280; OpDefineInteractive [WaitKey 27]] = Some dialog
  ∧ (roi_defined dialog = true ∧ roi_points dialog = [] ∧ ¬ roi_inv dialog).
Proof.
  cbv zeta.
  split; [split; [vm_compute; reflexivity|split; [vm_compute; reflexivity|]]|].
  { intros _. vm_compute. lia. }
  split; [vm_compute; reflexivity|].
  split; [vm_compute; reflexivity|].
  split; [split; [vm_compute; reflexivity|split; [vm_compute; reflexivity|]]|].
  { intros H. assert (Hd : roi_defined
      (default (init, [])
         (run even_odd_test
            (default (init, []) (run even_odd_test init (corner_source []) "auto_rectangle")).1
            (corner_source [WaitKey 27]) "interactive")).1 = true)
      by (vm_compute; reflexivity).
    specialize (H Hd). vm_compute in H. lia. }
  split; [vm_compute; reflexivity|].
  split; [vm_compute; reflexivity|].
  split; [vm_compute; reflexivity|].
  split; [vm_compute; reflexivity|].
  intros H. assert (Hd : roi_defined
      (default init
         (apply_ops even_odd_test init
            [OpAutoRhombus 720 1280; OpDefineInteractive [WaitKey 27]])) = true)
    by (vm_compute; reflexivity).
  specialize (H Hd). vm_compute in H. lia.
Qed.
